(** * HuntingTourneyBot: the stage-ban draft and its two generated files

    A shallow embedding of [HuntingTourneyBot.py]: the stage catalog and its
    resolver, the [DraftManager] object, the randomised stage ordering, the
    LiveSplit segment list, the [config.ini] writer and the ban coroutines
    of [MyClient].

    Conventions.
    - Python [str] is [string] (ASCII); [int] is [Z]; list positions are [nat].
    - A Python [dict] is an association list kept in insertion order:
      assigning to a key that is present replaces its value in place, a new
      key goes to the end.
    - The module [random] is a tape of draws read through a cursor:
      [randbelow n] returns the next draw reduced modulo [n].  Quantifying
      over the tape covers every outcome the generator can produce; its
      distribution is not modelled.
    - Methods run in the monad [M] over a [World] (the manager object, the
      tape and the trace of outputs).  An exception keeps the world reached
      so far, as in Python.
    - A coroutine runs to completion once started, and file and channel
      operations succeed. *)

From Stdlib Require Import List String Ascii ZArith NArith Arith Bool Lia.
From Stdlib Require Import Permutation.
From Stdlib Require Import DecimalString DecimalZ.
Import ListNotations.

Local Open Scope list_scope.
Local Open Scope string_scope.

(** ** Python strings *)

Module PyStr.

(** [c.lower()] on one ASCII character. *)
Definition lower_ascii (c : ascii) : ascii :=
  let n := nat_of_ascii c in
  if andb (65 <=? n)%nat (n <=? 90)%nat then ascii_of_nat (n + 32) else c.

(** [s.lower()] *)
Fixpoint lower (s : string) : string :=
  match s with
  | EmptyString => EmptyString
  | String c r => String (lower_ascii c) (lower r)
  end.



(** ASCII white space, as [str.strip()] sees it. *)
Definition is_space (c : ascii) : bool :=
  let n := nat_of_ascii c in
  orb (n =? 32)%nat (andb (9 <=? n)%nat (n <=? 13)%nat).

Fixpoint lstrip (s : string) : string :=
  match s with
  | EmptyString => EmptyString
  | String c r => if is_space c then lstrip r else s
  end.

Fixpoint rstrip (s : string) : string :=
  match s with
  | EmptyString => EmptyString
  | String c r =>
      match rstrip r with
      | EmptyString => if is_space c then EmptyString else String c EmptyString
      | r' => String c r'
      end
  end.

(** [s.strip()] *)
Definition strip (s : string) : string := rstrip (lstrip s).

(** [str(n)] for an [int]. *)
Definition str (z : Z) : string := NilZero.string_of_int (Z.to_int z).

(** [int(s)] on the decimal strings [str] produces; [None] is [ValueError]. *)
Definition int (s : string) : option Z :=
  option_map Z.of_int (NilZero.int_of_string s).

(** ["\n".join(l)] and friends. *)
Fixpoint join (sep : string) (l : list string) : string :=
  match l with
  | [] => ""
  | [x] => x
  | x :: r => x ++ sep ++ join sep r
  end.

(** An [Optional[str]] inside an f-string. *)
Definition fmt (o : option string) : string :=
  match o with Some s => s | None => "None" end.

Definition nl : string := String (ascii_of_nat 10) EmptyString.

Definition mem (s : string) (l : list string) : bool :=
  existsb (String.eqb s) l.

End PyStr.

(** ** Python dictionaries with string keys *)

Module PyDict.

Definition dict (V : Type) : Type := list (string * V).

Section Ops.
Context {V : Type}.

(** [d.get(k)]: [None] where [d[k]] raises [KeyError]. *)
Fixpoint get (d : dict V) (k : string) : option V :=
  match d with
  | [] => None
  | (k', v) :: r => if String.eqb k k' then Some v else get r k
  end.

(** [k in d] *)
Definition mem (d : dict V) (k : string) : bool :=
  match get d k with Some _ => true | None => false end.

(** [d[k] = v] *)
Fixpoint set (d : dict V) (k : string) (v : V) : dict V :=
  match d with
  | [] => [(k, v)]
  | (k', v') :: r =>
      if String.eqb k k' then (k', v) :: r else (k', v') :: set r k v
  end.

(** [d.keys()] *)
Definition keys (d : dict V) : list string := map fst d.

End Ops.

End PyDict.

Import PyStr PyDict.

(** ** The stage catalog *)

Definition STAGES : dict (list string) :=
  [ ("Wild Canyon",   ["WC"; "wild"; "canyon"]);
    ("Pumpkin Hill",  ["PH"; "pumpkin"; "hill"]);
    ("Death Chamber", ["DC"; "death"; "chamber"]);
    ("Aquatic Mine",  ["AM"; "aquatic"; "mine"]);
    ("Meteor Herd",   ["MH"; "meteor"; "herd"]);
    ("Dry Lagoon",    ["DL"; "dry"; "lagoon"]);
    ("Egg Quarters",  ["EQ"; "egg"; "quarters"]);
    ("Security Hall", ["SH"; "security"; "hall"]);
    ("Mad Space",     ["MS"; "mad"; "space"]) ].

Definition STAGE_NAMES : list string := keys STAGES.

Definition MAX_SEED : Z := 2 ^ 31 - 1.

Definition DRAFT_STATUS_FILE : string := "draft_status.txt".
Definition OUTPUT_DIR : string := ".output".

(** ** [DraftManager.resolve_stage_name] *)

(** The first loop: the first catalog name equal to the lowered input. *)
Fixpoint resolve_exact (stage_input : string) (items : dict (list string))
  : option string :=
  match items with
  | [] => None
  | (stage_name, _) :: r =>
      if String.eqb stage_input (lower stage_name) then Some stage_name
      else resolve_exact stage_input r
  end.

(** The second loop: the first stage one of whose lowered abbreviations is
    the lowered input. *)
Fixpoint resolve_abbr (stage_input : string) (items : dict (list string))
  : option string :=
  match items with
  | [] => None
  | (stage_name, abbreviations) :: r =>
      if PyStr.mem stage_input (map lower abbreviations) then Some stage_name
      else resolve_abbr stage_input r
  end.

Definition resolve_stage_name (stage_input : string) : option string :=
  let stage_input := lower stage_input in
  match resolve_exact stage_input STAGES with
  | Some stage_name => Some stage_name
  | None => resolve_abbr stage_input STAGES
  end.

(** The matching policy in the words of the specification: a stage matches
    by name when the two texts are equal ignoring case, by alias when the
    input equals one of its aliases ignoring case. *)
Definition same_ignoring_case (a b : string) : Prop := lower a = lower b.

Definition name_match (input : string) (e : string * list string) : Prop :=
  same_ignoring_case input (fst e).

Definition alias_match (input : string) (e : string * list string) : Prop :=
  exists a, In a (snd e) /\ same_ignoring_case input a.

(** [first_such P l e]: [e] is the first entry of [l] that satisfies [P]. *)
Inductive first_such {A} (P : A -> Prop) : list A -> A -> Prop :=
| first_here x l : P x -> first_such P (x :: l) x
| first_later x l y : ~ P x -> first_such P l y -> first_such P (x :: l) y.

Inductive resolution (input : string) : option string -> Prop :=
| res_name e :
    first_such (name_match input) STAGES e ->
    resolution input (Some (fst e))
| res_alias e :
    (forall e', In e' STAGES -> ~ name_match input e') ->
    first_such (alias_match input) STAGES e ->
    resolution input (Some (fst e))
| res_none :
    (forall e', In e' STAGES -> ~ name_match input e') ->
    (forall e', In e' STAGES -> ~ alias_match input e') ->
    resolution input None.

(** ** Lists as Python uses them *)

Module PyList.

Section Ops.
Context {A : Type}.

(** [l[i] = v] for [i] in range; the list is returned unchanged otherwise
    (the callers below check the range first). *)
Fixpoint update (l : list A) (i : nat) (v : A) : list A :=
  match l, i with
  | [], _ => []
  | _ :: r, O => v :: r
  | x :: r, S i' => x :: update r i' v
  end.

(** [l[i], l[j] = l[j], l[i]]: both reads happen before both writes;
    [None] is [IndexError]. *)
Definition swap (l : list A) (i j : nat) : option (list A) :=
  match nth_error l i, nth_error l j with
  | Some a, Some b => Some (update (update l i b) j a)
  | _, _ => None
  end.

(** [enumerate(l)] counted from [start]. *)
Fixpoint enumerate_from (start : Z) (l : list A) : list (Z * A) :=
  match l with
  | [] => []
  | x :: r => (start, x) :: enumerate_from (start + 1) r
  end.

Definition enumerate (l : list A) : list (Z * A) := enumerate_from 0 l.

(** [l.sort(key=...)] with an integer key: a stable insertion sort.  A
    stable sort is determined by its input and key, so this is the result
    of any stable sort. *)
Fixpoint insert_by (key : A -> Z) (x : A) (l : list A) : list A :=
  match l with
  | [] => [x]
  | y :: r => if (key x <? key y)%Z then x :: y :: r
              else y :: insert_by key x r
  end.

Definition sort_by (key : A -> Z) (l : list A) : list A :=
  fold_left (fun acc x => insert_by key x acc) l [].

End Ops.

End PyList.

Import PyList.

(** ** The manager object, the world and the monad *)

Record TextChannel := mkChannel {
  channel_name : string;
  (** whether the channel's guild has a text channel named for pacekeeping *)
  guild_has_pacekeeping : bool
}.

(** A node of [xml.etree.ElementTree]. *)
#[warnings="-register-all"]
Inductive Element :=
| Elem (tag : string) (attrib : list (string * string))
       (text : option string) (children : list Element).

(** What the program does to the outside. *)
Inductive event :=
| Print (line : string)
| Send (channel : string) (content : string)
| SendFiles (channel : string) (content : string) (files : list string)
| MakeDirs (path : string)
| WriteText (path : string) (content : string)
| WriteXml (path : string) (root : Element)
| Sleep (seconds : Z)
| StartConsoleInput.

Record DraftManager := mkDraftManager {
  runner1 : option string;
  runner2 : option string;
  first_banner : option string;
  second_banner : option string;
  banned_stages : list string;
  current_turn : option string;
  draft_active : bool;
  countdown_channel : option TextChannel;
  waiting_for_ban1 : bool;
  waiting_for_ban2 : bool;
  ordered_stages : list (string * Z * string);
  split_list : list string;
  output_lines : list string
}.

(** [DraftManager.__init__] (the console thread handle is not modelled: the
    console loop appears below through its iterations). *)
Definition DraftManager_init : DraftManager :=
  mkDraftManager None None None None [] None false None false false [] []
                 [""; ""; ""].

Record World := mkWorld {
  self : DraftManager;
  tape : nat -> N;
  cursor : nat;
  trace : list event
}.

Inductive exn :=
| ValueError (msg : string)
| KeyError (key : string)
| IndexError.

Inductive result (A : Type) :=
| Ok (a : A) (w : World)
| Raise (e : exn) (w : World).
Arguments Ok {A} a w.
Arguments Raise {A} e w.

Definition M (A : Type) : Type := World -> result A.

Definition ret {A} (a : A) : M A := fun w => Ok a w.

Definition bind {A B} (m : M A) (k : A -> M B) : M B :=
  fun w => match m w with
           | Ok a w' => k a w'
           | Raise e w' => Raise e w'
           end.

Definition raise {A} (e : exn) : M A := fun w => Raise e w.

Declare Scope py_scope.
Delimit Scope py_scope with py.
Notation "x <- c ;; k" := (bind c (fun x => k))
  (at level 61, c at next level, right associativity) : py_scope.
Notation "c ;;; k" := (bind c (fun _ => k))
  (at level 61, right associativity) : py_scope.
Local Open Scope py_scope.

(** [try: body except Exception as e: handler(e)] *)
Definition try_except {A} (body : M A) (handler : exn -> M A) : M A :=
  fun w => match body w with
           | Ok a w' => Ok a w'
           | Raise e w' => handler e w'
           end.

Definition get_self : M DraftManager := fun w => Ok (self w) w.

Definition modify_self (f : DraftManager -> DraftManager) : M unit :=
  fun w => Ok tt (mkWorld (f (self w)) (tape w) (cursor w) (trace w)).

Definition emit (e : event) : M unit :=
  fun w => Ok tt (mkWorld (self w) (tape w) (cursor w) (trace w ++ [e])%list).

(** [for x in l: body(x)] *)
Fixpoint for_each {A} (l : list A) (body : A -> M unit) : M unit :=
  match l with
  | [] => ret tt
  | x :: r => body x ;;; for_each r body
  end.

(** A loop that carries local variables [acc]. *)
Fixpoint for_fold {A S} (l : list A) (acc : S) (body : S -> A -> M S) : M S :=
  match l with
  | [] => ret acc
  | x :: r => acc' <- body acc x ;; for_fold r acc' body
  end.

(** [d[k]] and [l[i]] as expressions. *)
Definition getitem {V} (d : dict V) (k : string) : M V :=
  match PyDict.get d k with
  | Some v => ret v
  | None => raise (KeyError k)
  end.

Definition index {A} (l : list A) (i : nat) : M A :=
  match nth_error l i with
  | Some v => ret v
  | None => raise IndexError
  end.

Definition of_option {A} (o : option A) (e : exn) : M A :=
  match o with
  | Some v => ret v
  | None => raise e
  end.

(** *** The module [random] *)

(** [Random._randbelow(n)], defined for [n > 0]: a draw in [[0, n)]. *)
Definition randbelow (n : N) : M N :=
  fun w => Ok (tape w (cursor w) mod n)%N
              (mkWorld (self w) (tape w) (S (cursor w)) (trace w)).

(** [random.randint(a, b)]: [a + randbelow(b - a + 1)], [ValueError] on an
    empty range. *)
Definition randint (a b : Z) : M Z :=
  let width := (b + 1 - a)%Z in
  if (0 <? width)%Z then
    r <- randbelow (Z.to_N width) ;;
    ret (a + Z.of_N r)%Z
  else raise (ValueError "empty range for randrange()").

(** [random.choice(seq)] *)
Definition choice {A} (seq : list A) : M A :=
  match seq with
  | [] => raise IndexError
  | _ => j <- randbelow (N.of_nat (List.length seq)) ;; index seq (N.to_nat j)
  end.

(** [random.shuffle(x)]: for [i] from [len(x) - 1] down to [1], exchange
    [x[i]] with [x[randbelow(i + 1)]]. *)
Fixpoint shuffle_loop {A} (i : nat) (x : list A) : M (list A) :=
  match i with
  | O => ret x
  | S i' =>
      j <- randbelow (N.of_nat (i + 1)) ;;
      x' <- of_option (swap x i (N.to_nat j)) IndexError ;;
      shuffle_loop i' x'
  end.

Definition shuffle {A} (x : list A) : M (list A) :=
  shuffle_loop (List.length x - 1) x.

(** *** Field assignments on [self] *)

Definition set_runner1 v (d : DraftManager) :=
  mkDraftManager v (runner2 d) (first_banner d) (second_banner d)
    (banned_stages d) (current_turn d) (draft_active d) (countdown_channel d)
    (waiting_for_ban1 d) (waiting_for_ban2 d) (ordered_stages d)
    (split_list d) (output_lines d).
Definition set_runner2 v (d : DraftManager) :=
  mkDraftManager (runner1 d) v (first_banner d) (second_banner d)
    (banned_stages d) (current_turn d) (draft_active d) (countdown_channel d)
    (waiting_for_ban1 d) (waiting_for_ban2 d) (ordered_stages d)
    (split_list d) (output_lines d).
Definition set_first_banner v (d : DraftManager) :=
  mkDraftManager (runner1 d) (runner2 d) v (second_banner d)
    (banned_stages d) (current_turn d) (draft_active d) (countdown_channel d)
    (waiting_for_ban1 d) (waiting_for_ban2 d) (ordered_stages d)
    (split_list d) (output_lines d).
Definition set_second_banner v (d : DraftManager) :=
  mkDraftManager (runner1 d) (runner2 d) (first_banner d) v
    (banned_stages d) (current_turn d) (draft_active d) (countdown_channel d)
    (waiting_for_ban1 d) (waiting_for_ban2 d) (ordered_stages d)
    (split_list d) (output_lines d).
Definition set_banned_stages v (d : DraftManager) :=
  mkDraftManager (runner1 d) (runner2 d) (first_banner d) (second_banner d)
    v (current_turn d) (draft_active d) (countdown_channel d)
    (waiting_for_ban1 d) (waiting_for_ban2 d) (ordered_stages d)
    (split_list d) (output_lines d).
Definition set_current_turn v (d : DraftManager) :=
  mkDraftManager (runner1 d) (runner2 d) (first_banner d) (second_banner d)
    (banned_stages d) v (draft_active d) (countdown_channel d)
    (waiting_for_ban1 d) (waiting_for_ban2 d) (ordered_stages d)
    (split_list d) (output_lines d).
Definition set_draft_active v (d : DraftManager) :=
  mkDraftManager (runner1 d) (runner2 d) (first_banner d) (second_banner d)
    (banned_stages d) (current_turn d) v (countdown_channel d)
    (waiting_for_ban1 d) (waiting_for_ban2 d) (ordered_stages d)
    (split_list d) (output_lines d).
Definition set_countdown_channel v (d : DraftManager) :=
  mkDraftManager (runner1 d) (runner2 d) (first_banner d) (second_banner d)
    (banned_stages d) (current_turn d) (draft_active d) v
    (waiting_for_ban1 d) (waiting_for_ban2 d) (ordered_stages d)
    (split_list d) (output_lines d).
Definition set_waiting_for_ban1 v (d : DraftManager) :=
  mkDraftManager (runner1 d) (runner2 d) (first_banner d) (second_banner d)
    (banned_stages d) (current_turn d) (draft_active d) (countdown_channel d)
    v (waiting_for_ban2 d) (ordered_stages d)
    (split_list d) (output_lines d).
Definition set_waiting_for_ban2 v (d : DraftManager) :=
  mkDraftManager (runner1 d) (runner2 d) (first_banner d) (second_banner d)
    (banned_stages d) (current_turn d) (draft_active d) (countdown_channel d)
    (waiting_for_ban1 d) v (ordered_stages d)
    (split_list d) (output_lines d).
Definition set_ordered_stages v (d : DraftManager) :=
  mkDraftManager (runner1 d) (runner2 d) (first_banner d) (second_banner d)
    (banned_stages d) (current_turn d) (draft_active d) (countdown_channel d)
    (waiting_for_ban1 d) (waiting_for_ban2 d) v
    (split_list d) (output_lines d).
Definition set_split_list v (d : DraftManager) :=
  mkDraftManager (runner1 d) (runner2 d) (first_banner d) (second_banner d)
    (banned_stages d) (current_turn d) (draft_active d) (countdown_channel d)
    (waiting_for_ban1 d) (waiting_for_ban2 d) (ordered_stages d)
    v (output_lines d).
Definition set_output_lines v (d : DraftManager) :=
  mkDraftManager (runner1 d) (runner2 d) (first_banner d) (second_banner d)
    (banned_stages d) (current_turn d) (draft_active d) (countdown_channel d)
    (waiting_for_ban1 d) (waiting_for_ban2 d) (ordered_stages d)
    (split_list d) v.

(** ** [DraftManager] methods *)

Definition write_draft_status : M bool :=
  d <- get_self ;;
  emit (WriteText DRAFT_STATUS_FILE (join nl (output_lines d))) ;;;
  ret true.

Definition clear_draft_status : M unit :=
  modify_self (set_output_lines [""; ""; ""]) ;;;
  write_draft_status ;;;
  ret tt.

Definition reset : M unit :=
  modify_self (set_runner1 None) ;;;
  modify_self (set_runner2 None) ;;;
  modify_self (set_first_banner None) ;;;
  modify_self (set_second_banner None) ;;;
  modify_self (set_banned_stages []) ;;;
  modify_self (set_current_turn None) ;;;
  modify_self (set_draft_active false) ;;;
  modify_self (set_countdown_channel None) ;;;
  modify_self (set_waiting_for_ban1 false) ;;;
  modify_self (set_waiting_for_ban2 false) ;;;
  modify_self (set_ordered_stages []) ;;;
  modify_self (set_split_list []) ;;;
  clear_draft_status.

(** *** [generate_ordered_stages] *)

(** [stage_abbrs[stage] = STAGES[stage][0].lower()] for each stage. *)
Definition build_stage_abbrs : M (dict string) :=
  for_fold STAGE_NAMES [] (fun stage_abbrs stage =>
    abbreviations <- getitem STAGES stage ;;
    first <- index abbreviations 0 ;;
    ret (PyDict.set stage_abbrs stage (lower first))).

(** [{abbr: stage for stage, abbr in stage_abbrs.items()}] *)
Definition invert (stage_abbrs : dict string) : dict string :=
  fold_left (fun d e => PyDict.set d (snd e) (fst e)) stage_abbrs [].

(** The loop over [self.banned_stages]. *)
Definition zero_banned (stage_abbrs : dict string) (banned : list string)
  (order_dict : dict string) : dict string :=
  fold_left (fun od stage =>
               match PyDict.get stage_abbrs stage with
               | Some abbr => PyDict.set od abbr "0"
               | None => od
               end) banned order_dict.

(** [[stage for stage in STAGE_NAMES if stage not in self.banned_stages]] *)
Definition remaining_of (banned : list string) : list string :=
  filter (fun stage => negb (PyStr.mem stage banned)) STAGE_NAMES.

(** The correction applied after the shuffle: when Security Hall comes
    first it changes places with the stage at a drawn position. *)
Definition avoid_security_hall_first (remaining_stages : list string)
  : M (list string) :=
  match remaining_stages with
  | first :: _ =>
      if String.eqb first "Security Hall" then
        swap_idx <- randint 1 (Z.of_nat (List.length remaining_stages) - 1) ;;
        of_option (swap remaining_stages 0 (Z.to_nat swap_idx)) IndexError
      else ret remaining_stages
  | [] => ret remaining_stages
  end.

(** The loop over [enumerate(remaining_stages)]. *)
Definition number_remaining (stage_abbrs : dict string)
  (remaining_stages : list string) (order_dict : dict string) : dict string :=
  fold_left (fun od e =>
               match PyDict.get stage_abbrs (snd e) with
               | Some abbr => PyDict.set od abbr (str (fst e + 1))
               | None => od
               end) (enumerate remaining_stages) order_dict.

(** The loop that gives every stage still missing the value ["0"]. *)
Definition fill_missing (stage_abbrs : dict string) (order_dict : dict string)
  : M (dict string) :=
  for_fold STAGE_NAMES order_dict (fun od stage =>
    abbr <- getitem stage_abbrs stage ;;
    if PyDict.mem od abbr then ret od else ret (PyDict.set od abbr "0")).

(** The loop over [order_dict.items()]. *)
Definition collect_ordered (abbr_to_stage : dict string)
  (order_dict : dict string) : M (list (string * Z * string)) :=
  for_fold order_dict [] (fun ordered e =>
    stage_name <- getitem abbr_to_stage (fst e) ;;
    order_value <- of_option (int (snd e))
                     (ValueError "invalid literal for int()") ;;
    ret (ordered ++ [(stage_name, order_value, fst e)])%list).

Definition generate_ordered_stages
  : M (list (string * Z * string) * dict string) :=
  stage_abbrs <- build_stage_abbrs ;;
  let abbr_to_stage := invert stage_abbrs in
  d <- get_self ;;
  let order_dict := zero_banned stage_abbrs (banned_stages d) [] in
  let remaining_stages := remaining_of (banned_stages d) in
  remaining_stages <- shuffle remaining_stages ;;
  remaining_stages <- avoid_security_hall_first remaining_stages ;;
  let order_dict := number_remaining stage_abbrs remaining_stages order_dict in
  order_dict <- fill_missing stage_abbrs order_dict ;;
  ordered <- collect_ordered abbr_to_stage order_dict ;;
  modify_self (set_ordered_stages ordered) ;;;
  ret (ordered, stage_abbrs).

(** *** The LiveSplit file *)

(** One [Segment] node with its fixed children. *)
Definition segment_element (split_name : string) : Element :=
  Elem "Segment" [] None
    [ Elem "Name" [] (Some split_name) [];
      Elem "Icon" [] None [];
      Elem "SplitTimes" [] None
        [ Elem "SplitTime" [("name", "Personal Best")] None [] ];
      Elem "BestSegmentTime" [] None [];
      Elem "SegmentHistory" [] None [] ].

(** The text of the [Name] child of a segment. *)
Definition segment_name (e : Element) : option string :=
  match e with
  | Elem _ _ _ (Elem _ _ name _ :: _) => name
  | _ => None
  end.

(** [_create_livesplit_segments]: the local state of the two loops is the
    counter [split_num] and the children appended to [segments] so far;
    [self.split_list] grows by one entry per pass. *)
Definition _create_livesplit_segments (segments : list Element)
  (stage_order : list string) (total_splits : Z) : M (list Element) :=
  modify_self (set_split_list []) ;;;
  st <- for_fold stage_order (1%Z, segments) (fun st stage =>
          for_fold [1; 2; 3; 4; 5]%Z st (fun st i =>
            let split_num := fst st in
            let split_name := stage ++ " " ++ str i in
            modify_self (fun d =>
              set_split_list (split_list d ++ [split_name])%list d) ;;;
            let split_name :=
              split_name ++ " (" ++ str split_num ++ "/" ++ str total_splits
                         ++ ")" in
            ret ((split_num + 1)%Z,
                 (snd st ++ [segment_element split_name])%list))) ;;
  ret (snd st).

Definition livesplit_settings : list (string * string) :=
  [ ("storyStart", "False"); ("NG+", "False"); ("huntingTimer", "True");
    ("timeIGT", "False"); ("combinedHunting", "False"); ("no280", "False");
    ("fileReset", "True"); ("stageExit", "False"); ("resetIL", "False");
    ("stageEntry", "False"); ("chaoRace", "False"); ("backRing", "False");
    ("cannonsCore", "False"); ("bossRush", "False") ].

Definition _add_livesplit_settings (custom_settings : list Element)
  : list Element :=
  fold_left (fun cs e =>
               (cs ++ [Elem "Setting" [("id", fst e); ("type", "bool")]
                            (Some (snd e)) []])%list)
            livesplit_settings custom_settings.

(** The [order > 0] entries sorted by order, names only. *)
Definition stage_order_of (ordered : list (string * Z * string))
  : list string :=
  let active_stages :=
    map (fun e => (fst (fst e), snd (fst e)))
        (filter (fun e => (0 <? snd (fst e))%Z) ordered) in
  map fst (sort_by snd active_stages).

Definition backslash : string := String (ascii_of_nat 92) EmptyString.

Definition script_path : string :=
  "C:" ++ backslash ++ "Users" ++ backslash ++ "PC" ++ backslash
  ++ "Downloads" ++ backslash ++ "LiveSplit_1.8.16" ++ backslash
  ++ "Components" ++ backslash ++ "LiveSplit.SA2.asl".

(** The [Run] tree [generate_split_file] builds around the segments and
    the custom settings. *)
Definition split_document (segments custom_settings : list Element)
  : Element :=
  Elem "Run" [("version", "1.7.0")] None
    [ Elem "GameIcon" [] None [];
      Elem "GameName" []
        (Some "Sonic Adventure 2: Battle - Category Extensions") [];
      Elem "CategoryName" [] (Some "Hunting Tourney!") [];
      Elem "LayoutPath" [] None [];
      Elem "Metadata" [] None
        [ Elem "Run" [("id", "")] None [];
          Elem "Platform" [("usesEmulator", "False")] None [];
          Elem "Region" [] None [];
          Elem "Variables" [] None [] ];
      Elem "Offset" [] (Some "00:00:00") [];
      Elem "AttemptCount" [] (Some "0") [];
      Elem "AttemptHistory" [] None [];
      Elem "Segments" [] None segments;
      Elem "AutoSplitterSettings" [] None
        [ Elem "Version" [] (Some "1.5") [];
          Elem "ScriptPath" [] (Some script_path) [];
          Elem "Start" [] (Some "True") [];
          Elem "Reset" [] (Some "True") [];
          Elem "Split" [] (Some "True") [];
          Elem "CustomSettings" [] None custom_settings ] ].

(** The path of the split file for two runners. *)
Definition split_file_path (runner1 runner2 : option string) : string :=
  let filename := "SA2B - Hunting Tourney - " ++ fmt runner1 ++ " vs "
                  ++ fmt runner2 ++ ".lss" in
  OUTPUT_DIR ++ "/" ++ filename.

(** [generate_split_file]; the document handed to the file is the tree
    (its pretty-printed text is a function of the tree). *)
Definition generate_split_file : M string :=
  emit (MakeDirs OUTPUT_DIR) ;;;
  d <- get_self ;;
  let filepath := split_file_path (runner1 d) (runner2 d) in
  let ordered := ordered_stages d in
  let stage_order := stage_order_of ordered in
  let total_splits := (Z.of_nat (List.length stage_order) * 5)%Z in
  segments <- _create_livesplit_segments [] stage_order total_splits ;;
  let custom_settings := _add_livesplit_settings [] in
  let root := split_document segments custom_settings in
  emit (WriteXml filepath root) ;;;
  emit (Print ("Generated LiveSplit file: " ++ filepath)) ;;;
  ret filepath.

(** *** The configuration file *)

(** A [ConfigParser]: its sections in order, each with its options. *)
Definition ConfigParser : Type := dict (dict string).

Definition _write_config_section (config : ConfigParser) (section : string)
  (data : dict string) : ConfigParser :=
  PyDict.set config section data.

(** The text written for the sections of [config]. *)
Definition config_text (config : ConfigParser) : string :=
  fold_left (fun text sec =>
    text ++ "[" ++ fst sec ++ "]" ++ nl
         ++ fold_left (fun t kv => t ++ fst kv ++ "=" ++ snd kv ++ nl)
                      (snd sec) ""
         ++ nl) config "".

(** The body of [generate_config_file] up to the parser it fills. *)
Definition build_config : M ConfigParser :=
  r <- generate_ordered_stages ;;
  let ordered := fst r in
  let stage_abbrs := snd r in
  let config : ConfigParser := [] in
  seed <- randint 1 MAX_SEED ;;
  let config :=
    _write_config_section config "set" [("seed", str seed); ("ups", "True")] in
  let order_dict :=
    fold_left (fun od e => PyDict.set od (snd e) (str (snd (fst e))))
              ordered [] in
  order_dict <- fill_missing stage_abbrs order_dict ;;
  let config := _write_config_section config "order" order_dict in
  number_dict <- for_fold STAGE_NAMES [] (fun nd stage =>
                   abbr <- getitem stage_abbrs stage ;;
                   ret (PyDict.set nd abbr "5")) ;;
  let config := _write_config_section config "number" number_dict in
  ret config.

Definition generate_config_file : M string :=
  emit (MakeDirs OUTPUT_DIR) ;;;
  let filename := "config.ini" in
  let filepath := OUTPUT_DIR ++ "/" ++ filename in
  config <- build_config ;;
  emit (WriteText filepath (config_text config)) ;;;
  emit (Print ("Generated config file: " ++ filepath)) ;;;
  ret filepath.

(** *** The console loop's view of the manager *)

Definition exn_str (e : exn) : string :=
  match e with
  | ValueError msg => msg
  | KeyError key => "'" ++ key ++ "'"
  | IndexError => "list index out of range"
  end.

Definition opt_eqb (a b : option string) : bool :=
  match a, b with
  | Some x, Some y => String.eqb x y
  | None, None => true
  | _, _ => false
  end.

(** [l[i] = v] as a statement. *)
Definition setitem {A} (l : list A) (i : nat) (v : A) : M (list A) :=
  if (i <? List.length l)%nat then ret (update l i v) else raise IndexError.

Definition set_output_line (i : nat) (v : string) : M unit :=
  d <- get_self ;;
  lines <- setitem (output_lines d) i v ;;
  modify_self (set_output_lines lines).

(** ** [MyClient] *)

Definition PREFIX : string := "!".

Record Message := mkMessage {
  author_is_client : bool;
  author_roles : list string;
  content : string;
  channel : TextChannel;
  channel_is_text : bool
}.

Inductive waiting_attr := attr_waiting_for_ban1 | attr_waiting_for_ban2.

Definition getattr (d : DraftManager) (a : waiting_attr) : bool :=
  match a with
  | attr_waiting_for_ban1 => waiting_for_ban1 d
  | attr_waiting_for_ban2 => waiting_for_ban2 d
  end.

Definition setattr (a : waiting_attr) (v : bool) : M unit :=
  match a with
  | attr_waiting_for_ban1 => modify_self (set_waiting_for_ban1 v)
  | attr_waiting_for_ban2 => modify_self (set_waiting_for_ban2 v)
  end.

Definition dquote : string := String (ascii_of_nat 34) EmptyString.

Definition mod_folder : string :=
  dquote ++ "C:" ++ backslash ++ "Program Files (x86)" ++ backslash ++ "Steam"
  ++ backslash ++ "steamapps" ++ backslash ++ "common" ++ backslash
  ++ "Sonic Adventure 2" ++ backslash ++ "mods" ++ backslash
  ++ "HuntingTourney" ++ dquote.

Definition PACEKEEPING : string := "⏰-pacekeeping".

(** The closing branch of [_process_ban]: the two files, their delivery and
    the end of the draft. *)
Definition conclude_draft (banner full_stage_name : string) : M unit :=
  emit (Print (nl ++ banner ++ " banned " ++ full_stage_name)) ;;;
  set_output_line 0 "Draft concluded" ;;;
  write_draft_status ;;;
  config_file <- generate_config_file ;;
  split_file <- generate_split_file ;;
  d <- get_self ;;
  match countdown_channel d with
  | Some ch =>
      emit (SendFiles (channel_name ch)
              ("The draft has been concluded. Thank you. Here are the split file and the config file."
               ++ nl ++
               "As a reminder, the config.ini file goes inside this folder: "
               ++ mod_folder)
              [split_file; config_file]) ;;;
      emit (Print ("Successfully sent files to Discord: " ++ split_file
                   ++ " and " ++ config_file)) ;;;
      if guild_has_pacekeeping ch then
        emit (Send PACEKEEPING "Here is the list of splits for the draft:") ;;;
        emit (Send PACEKEEPING (join nl (split_list d))) ;;;
        emit (Print "Successfully sent splits list to pacekeeping channel")
      else ret tt
  | None => ret tt
  end ;;;
  modify_self (set_waiting_for_ban2 false) ;;;
  modify_self (set_draft_active false) ;;;
  emit (Print "The draft has been concluded.").

Definition _process_ban (full_stage_name : string)
  (banner next_banner : option string) (line_index : nat)
  (waiting : waiting_attr) (next_waiting : option waiting_attr)
  (is_final_ban : bool) : M unit :=
  d <- get_self ;;
  if orb (negb (draft_active d)) (negb (getattr d waiting)) then ret tt else
  match banner with
  | None => emit (Print "Error: banner is None in _process_ban.")
  | Some banner =>
      modify_self (fun d =>
        set_banned_stages (banned_stages d ++ [full_stage_name])%list d) ;;;
      set_output_line line_index full_stage_name ;;;
      write_draft_status ;;;
      set_output_line 0 (banner ++ " banned " ++ full_stage_name) ;;;
      write_draft_status ;;;
      d <- get_self ;;
      match countdown_channel d, is_final_ban, next_banner with
      | Some ch, false, Some next =>
          emit (Send (channel_name ch)
                  (full_stage_name ++ " has been banned. It's " ++ next
                   ++ "'s turn to ban. Please type which stage you would like to ban."))
      | Some ch, _, _ =>
          emit (Send (channel_name ch) (full_stage_name ++ " has been banned."))
      | None, _, _ => ret tt
      end ;;;
      emit (Sleep 3) ;;;
      match is_final_ban, next_banner with
      | false, Some next =>
          modify_self (set_current_turn (Some next)) ;;;
          set_output_line 0 (next ++ "'s turn to ban") ;;;
          write_draft_status ;;;
          setattr waiting false ;;;
          match next_waiting with
          | Some a => setattr a true
          | None => ret tt
          end ;;;
          emit (Print (nl ++ banner ++ " banned " ++ full_stage_name)) ;;;
          emit (Print ("Now waiting for " ++ next ++ "'s ban..."))
      | _, _ => conclude_draft banner full_stage_name
      end
  end.

Definition process_ban1 (full_stage_name : string) : M unit :=
  d <- get_self ;;
  _process_ban full_stage_name (first_banner d) (second_banner d)
    (if opt_eqb (first_banner d) (runner1 d) then 1 else 2)%nat
    attr_waiting_for_ban1 (Some attr_waiting_for_ban2) false.

Definition process_ban2 (full_stage_name : string) : M unit :=
  d <- get_self ;;
  _process_ban full_stage_name (second_banner d) None
    (if opt_eqb (second_banner d) (runner1 d) then 1 else 2)%nat
    attr_waiting_for_ban2 None true.

(** One pass of the body of [console_input_loop] while a ban is awaited,
    [line] being what [input] returns. *)
Definition console_pass (line : string) : M unit :=
  d <- get_self ;;
  emit (Print (nl ++ "Waiting for "
               ++ (if waiting_for_ban1 d then "first" else "second")
               ++ " stage ban...")) ;;;
  emit (Print ("Enter stage name or abbreviation for " ++ fmt (current_turn d)
               ++ " to ban:")) ;;;
  emit (Print (nl ++ "Available stages:")) ;;;
  for_each STAGES (fun e =>
    if PyStr.mem (fst e) (banned_stages d) then ret tt
    else emit (Print ("- " ++ fst e ++ " (" ++ hd "" (snd e) ++ ")"))) ;;;
  try_except
    (let stage_input := strip line in
     match resolve_stage_name stage_input with
     | None => emit (Print "Invalid stage name. Please try again.")
     | Some full_stage_name =>
         if PyStr.mem full_stage_name (banned_stages d) then
           emit (Print (full_stage_name ++ " has already been banned. "
                        ++ "Please choose another stage."))
         else if waiting_for_ban1 d then
           try_except (process_ban1 full_stage_name)
             (fun e => emit (Print ("Error processing ban1: " ++ exn_str e)))
         else
           try_except (process_ban2 full_stage_name)
             (fun e => emit (Print ("Error processing ban2: " ++ exn_str e)))
     end)
    (fun e => emit (Print ("Error processing input: " ++ exn_str e))).

(** [console_input_loop] fed the lines typed at the console.  The loop ends
    when the draft is no longer active; while no ban is awaited it idles
    (the half-second pauses of the thread leave no trace). *)
Fixpoint console_input_loop (lines : list string) : M unit :=
  match lines with
  | [] => ret tt
  | line :: rest =>
      d <- get_self ;;
      if draft_active d then
        if orb (waiting_for_ban1 d) (waiting_for_ban2 d) then
          console_pass line ;;; console_input_loop rest
        else ret tt
      else ret tt
  end.

Definition has_drafter_role (roles : list string) : bool :=
  existsb (fun name => String.eqb (lower name) "hunting drafter") roles.

Definition _handle_start_command (message : Message) (tokens : list string)
  : M unit :=
  let send text := emit (Send (channel_name (channel message)) text) in
  if negb (has_drafter_role (author_roles message)) then
    send "You need the Hunting Drafter role to use this command."
  else
  match tokens with
  | [_; name1; name2] =>
      if orb (10 <=? String.length name1)%nat (10 <=? String.length name2)%nat
      then send "Runner names must be less than 10 characters long."
      else
        reset ;;;
        modify_self (set_runner1 (Some name1)) ;;;
        modify_self (set_runner2 (Some name2)) ;;;
        modify_self (set_draft_active true) ;;;
        modify_self (set_countdown_channel
                       (if channel_is_text message
                        then Some (channel message) else None)) ;;;
        set_output_line 0 "The draft is starting!" ;;;
        write_draft_status ;;;
        coin_flip <- choice [0; 1]%Z ;;
        d <- get_self ;;
        (if (coin_flip =? 0)%Z then
           modify_self (set_first_banner (runner1 d)) ;;;
           modify_self (set_second_banner (runner2 d))
         else
           modify_self (set_first_banner (runner2 d)) ;;;
           modify_self (set_second_banner (runner1 d))) ;;;
        modify_self (fun d => set_current_turn (first_banner d) d) ;;;
        send "Who will ban first!?" ;;;
        emit (Sleep 1) ;;;
        send "3..." ;;;
        emit (Sleep 1) ;;;
        send "2..." ;;;
        emit (Sleep 1) ;;;
        send "1..." ;;;
        emit (Sleep 1) ;;;
        d <- get_self ;;
        send (fmt (first_banner d)
              ++ " bans first! Please type which stage you would like to ban.") ;;;
        set_output_line 0 (fmt (first_banner d) ++ "'s turn to ban") ;;;
        write_draft_status ;;;
        emit (Print (nl ++ fmt (first_banner d) ++ " bans first!")) ;;;
        modify_self (set_waiting_for_ban1 true) ;;;
        emit StartConsoleInput
  | _ => send "Usage: !start <Runner Name 1> <Runner Name 2>"
  end.

(** [s.split()]: the maximal runs of characters that are not white space. *)
Fixpoint split_ws_aux (s : string) (word : string) : list string :=
  match s with
  | EmptyString =>
      match word with EmptyString => [] | _ => [word] end
  | String c r =>
      if is_space c then
        match word with
        | EmptyString => split_ws_aux r EmptyString
        | _ => word :: split_ws_aux r EmptyString
        end
      else split_ws_aux r (word ++ String c EmptyString)
  end.

Definition split_ws (s : string) : list string := split_ws_aux s EmptyString.

Definition on_message (message : Message) : M unit :=
  if author_is_client message then ret tt else
  if String.prefix PREFIX (content message) then
    let tokens := split_ws (content message) in
    token0 <- index tokens 0 ;;
    let command :=
      lower (String.substring (String.length PREFIX)
               (String.length token0 - String.length PREFIX) token0) in
    if String.eqb command "start" then _handle_start_command message tokens
    else if String.eqb command "end" then
      reset ;;;
      emit (Send (channel_name (channel message)) "The draft has been reset.")
    else ret tt
  else ret tt.

(** ** Sessions

    What can happen to the manager from outside: a chat message arrives, or
    a line is typed while the console loop runs. *)
Inductive action :=
| ChatMessage (message : Message)
| ConsoleLine (line : string).

Definition perform (a : action) : M unit :=
  match a with
  | ChatMessage message => on_message message
  | ConsoleLine line => console_input_loop [line]
  end.

(** The world an action leaves behind, whether it returned or raised. *)
Definition world_after {A} (r : result A) : World :=
  match r with
  | Ok _ w => w
  | Raise _ w => w
  end.

Definition initial_world (t : nat -> N) : World :=
  mkWorld DraftManager_init t 0 [].

Inductive reachable : World -> Prop :=
| reach_init t : reachable (initial_world t)
| reach_step w a : reachable w -> reachable (world_after (perform a w)).

(** ** Vocabulary of the statements *)

Definition SECURITY_HALL : string := "Security Hall".

(** The abbreviation of a stage: its first alias, lowered. *)
Definition abbr_of (stage : string) : string :=
  match PyDict.get STAGES stage with
  | Some (first :: _) => lower first
  | _ => ""
  end.

(** The value of [stage_abbrs]. *)
Definition abbr_table : dict string :=
  map (fun e => (fst e, abbr_of (fst e))) STAGES.

(** Stages paired with ranks: the banned ones at 0 in ban order, then the
    sequence [remaining] numbered from 1. *)
Definition ranked (banned remaining : list string) : list (string * Z) :=
  map (fun stage => (stage, 0%Z)) banned
  ++ map (fun e => (snd e, (fst e + 1)%Z)) (enumerate remaining).

(** The list [generate_ordered_stages] returns for a given final sequence. *)
Definition ordering_of (banned remaining : list string)
  : list (string * Z * string) :=
  map (fun p => (fst p, snd p, abbr_of (fst p))) (ranked banned remaining).

(** The rank a stage has in an ordering. *)
Fixpoint rank_in (ordered : list (string * Z * string)) (stage : string)
  : option Z :=
  match ordered with
  | [] => None
  | (name, order, _) :: r =>
      if String.eqb stage name then Some order else rank_in r stage
  end.

(** The [Name] texts of a list of segments. *)
Definition segment_names (segments : list Element) : list (option string) :=
  map segment_name segments.

(** A split label as the specification writes it. *)
Definition split_label (stage : string) (i running total : Z) : string :=
  stage ++ " " ++ str i ++ " (" ++ str running ++ "/" ++ str total ++ ")".

(** A world with its manager changed by [f]. *)
Definition with_self (f : DraftManager -> DraftManager) (w : World) : World :=
  mkWorld (f (self w)) (tape w) (cursor w) (trace w).

Definition with_trace (evs : list event) (w : World) : World :=
  mkWorld (self w) (tape w) (cursor w) (trace w ++ evs)%list.

(** The draws of two worlds agree on the next [n] positions. *)
Definition same_draws (n : nat) (w1 w2 : World) : Prop :=
  forall i, (i < n)%nat ->
            tape w1 (cursor w1 + i)%nat = tape w2 (cursor w2 + i)%nat.

(** A world whose manager holds the given bans. *)
Definition world_with_bans (banned : list string) (t : nat -> N) : World :=
  mkWorld (set_banned_stages banned DraftManager_init) t 0 [].

(** The world after [n] more draws. *)
Definition advance (n : nat) (w : World) : World :=
  mkWorld (self w) (tape w) (cursor w + n) (trace w).

(** The five labels of one stage, the first of them numbered [first]. *)
Definition stage_labels (stage : string) (first total : Z) : list string :=
  map (fun i => split_label stage i (first + i - 1) total) [1; 2; 3; 4; 5]%Z.

(** Five labels per stage in sequence order, numbered on from [first]. *)
Fixpoint labels_from (first total : Z) (stage_order : list string)
  : list string :=
  match stage_order with
  | [] => []
  | stage :: r =>
      (stage_labels stage first total ++ labels_from (first + 5) total r)%list
  end.

(** The same list by position: entry [k] (from 0) belongs to stage
    [k / 5], is its split [k mod 5 + 1], and carries the running index
    [k + 1] out of [5 * N]. *)
Definition expected_labels (stage_order : list string) : list string :=
  map (fun k =>
         split_label (nth (k / 5) stage_order "")
                     (Z.of_nat (k mod 5) + 1) (Z.of_nat k + 1)
                     (Z.of_nat (5 * List.length stage_order)))
      (seq 0 (5 * List.length stage_order)).

(** The entries [self.split_list] receives: the labels without the running
    index. *)
Definition expected_split_list (stage_order : list string) : list string :=
  map (fun k => nth (k / 5) stage_order "" ++ " "
                ++ str (Z.of_nat (k mod 5) + 1))
      (seq 0 (5 * List.length stage_order)).

(** The children of the [Segments] node of a document. *)
Definition segments_of (root : Element) : list Element :=
  match root with
  | Elem _ _ _ children =>
      flat_map (fun c => match c with
                         | Elem tag _ _ segs =>
                             if String.eqb tag "Segments" then segs else []
                         end) children
  end.

(** The parser [generate_config_file] fills, for a seed and a final
    sequence. *)
Definition config_of (seed : Z) (banned remaining : list string)
  : ConfigParser :=
  [ ("set", [("seed", str seed); ("ups", "True")]);
    ("order", map (fun p => (abbr_of (fst p), str (snd p)))
                  (ranked banned remaining));
    ("number", map (fun stage => (abbr_of stage, "5")) STAGE_NAMES) ].

(** The seed read at the cursor of a world. *)
Definition seed_at (w : World) : Z :=
  (1 + Z.of_N (tape w (cursor w) mod Z.to_N (MAX_SEED + 1 - 1)))%Z.

(** What holds of the manager throughout a session. *)
Definition session_invariant (d : DraftManager) : Prop :=
  NoDup (banned_stages d)
  /\ incl (banned_stages d) STAGE_NAMES
  /\ (List.length (banned_stages d) <= 2)%nat
  /\ List.length (output_lines d) = 3%nat
  /\ (draft_active d = true -> waiting_for_ban1 d = true ->
      banned_stages d = [])
  /\ (draft_active d = true -> waiting_for_ban2 d = true ->
      (List.length (banned_stages d) <= 1)%nat).

(** One action records at most one ban, a catalog stage not banned
    before. *)
Definition at_most_one_new_ban (before after : list string) : Prop :=
  after = before
  \/ after = []
  \/ exists stage, after = (before ++ [stage])%list
                   /\ ~ In stage before /\ In stage STAGE_NAMES.

(** A session used in the examples: a start command from a drafter, then
    lines typed at the console. *)
Definition drafter_says (text : string) : action :=
  ChatMessage (mkMessage false ["Hunting Drafter"] text
                 (mkChannel "drafts" false) true).

Fixpoint session (actions : list action) (w : World) : World :=
  match actions with
  | [] => w
  | a :: r => session r (world_after (perform a w))
  end.

Definition concluded_example : World :=
  world_after (perform (ConsoleLine "pumpkin")
    (world_after (perform (ConsoleLine "WC")
       (world_after (perform (drafter_says "!start Alice Bob")
          (initial_world (fun n => N.of_nat n))))))).

(** [yields m w Q]: run from [w], the computation [m] returns (it does not
    raise), and its value and the manager it leaves satisfy [Q]. *)
Definition yields {A} (m : M A) (w : World)
  (Q : A -> DraftManager -> Prop) : Prop :=
  exists a w', m w = Ok a w' /\ Q a (self w').


(** ** [load_token] *)







(** * Properties *)

Local Open Scope list_scope.

(** ** Strings *)





Lemma append_assoc (a b c : string) :
  ((a ++ b) ++ c = a ++ (b ++ c))%string.
Proof. induction a as [|x a IH]; simpl; [reflexivity | now rewrite IH]. Qed.

Lemma mem_In s l : PyStr.mem s l = true <-> In s l.
Proof.
  unfold PyStr.mem. rewrite existsb_exists. split.
  - intros (x & Hx & E). apply String.eqb_eq in E. now subst.
  - intros H. exists s. split; [assumption | apply String.eqb_refl].
Qed.

Lemma mem_not_In s l : PyStr.mem s l = false <-> ~ In s l.
Proof.
  rewrite <- mem_In. destruct (PyStr.mem s l); split; congruence.
Qed.

Lemma int_str z : int (str z) = Some z.
Proof.
  unfold int, str.
  assert (H : NilZero.int_of_string (NilZero.string_of_int (Z.to_int z))
              = Some (Z.to_int z)).
  { apply NilZero.isi; destruct z; simpl; try discriminate;
      intros E; injection E as E;
      pose proof (DecimalPos.Unsigned.to_uint_nonnil p); congruence. }
  rewrite H. simpl. now rewrite DecimalZ.of_to.
Qed.

(** ** The resolver *)

Section Resolver.

Variable input : string.






End Resolver.

Lemma first_such_unique {A} (P : A -> Prop) l x y :
  first_such P l x -> first_such P l y -> x = y.
Proof.
  induction 1 as [x l Hx | z l x Hz Hf IH]; inversion 1; subst;
    try reflexivity; try contradiction.
  now apply IH.
Qed.

Lemma first_such_In {A} (P : A -> Prop) l x :
  first_such P l x -> In x l /\ P x.
Proof.
  induction 1 as [x l Hx | z l x Hz Hf [IH1 IH2]]; simpl; auto.
Qed.

(** The policy determines the result. *)
Lemma resolution_functional input r1 r2 :
  resolution input r1 -> resolution input r2 -> r1 = r2.
Proof.
  intros H1 H2.
  destruct H1 as [e1 F1 | e1 N1 F1 | N1 A1];
    destruct H2 as [e2 F2 | e2 N2 F2 | N2 A2].
  - now rewrite (first_such_unique _ _ _ _ F1 F2).
  - apply first_such_In in F1 as [Hin Hp]. now elim (N2 e1).
  - apply first_such_In in F1 as [Hin Hp]. now elim (N2 e1).
  - apply first_such_In in F2 as [Hin Hp]. now elim (N1 e2).
  - now rewrite (first_such_unique _ _ _ _ F1 F2).
  - apply first_such_In in F1 as [Hin Hp]. now elim (A2 e1).
  - apply first_such_In in F2 as [Hin Hp]. now elim (N1 e2).
  - apply first_such_In in F2 as [Hin Hp]. now elim (A1 e2).
  - reflexivity.
Qed.


(** ** Lists: update, swap, stable sort *)

Section ListFacts.

Context {A : Type}.

Lemma update_length (l : list A) i v : List.length (update l i v) = List.length l.
Proof.
  revert i; induction l as [|x r IH]; intros [|i]; simpl; auto.
Qed.

(** Putting [x] where [b] was and [b] in front is a rearrangement. *)
Lemma update_front_perm (r : list A) j b x :
  nth_error r j = Some b -> Permutation (x :: r) (b :: update r j x).
Proof.
  revert j; induction r as [|y r IH]; intros [|j]; simpl; try discriminate.
  - intros [= ->]. apply perm_swap.
  - intros H. specialize (IH j H).
    eapply perm_trans; [apply perm_swap|].
    eapply perm_trans; [apply perm_skip, IH|]. apply perm_swap.
Qed.

Lemma swap_some (l : list A) i j :
  (i < List.length l)%nat -> (j < List.length l)%nat ->
  exists l', swap l i j = Some l' /\ Permutation l l'.
Proof.
  unfold swap. revert i j.
  induction l as [|x r IH]; intros i j Hi Hj; simpl in *; [lia|].
  destruct i as [|i], j as [|j]; simpl.
  - eexists; split; [reflexivity|apply Permutation_refl].
  - destruct (nth_error r j) as [b|] eqn:E.
    + eexists; split; [reflexivity|]. now apply update_front_perm.
    + apply nth_error_None in E. lia.
  - destruct (nth_error r i) as [a|] eqn:E.
    + eexists; split; [reflexivity|]. now apply update_front_perm.
    + apply nth_error_None in E. lia.
  - destruct (IH i j ltac:(lia) ltac:(lia)) as (l' & Hs & Hp).
    destruct (nth_error r i) as [a|]; [|discriminate].
    destruct (nth_error r j) as [b|]; [|discriminate].
    injection Hs as <-.
    eexists; split; [reflexivity|]. now apply perm_skip.
Qed.

(** Exchanging the head with position [S j] brings the element of that
    position to the front. *)
Lemma swap_head (x : A) r j b :
  nth_error r j = Some b ->
  swap (x :: r) 0 (S j) = Some (b :: update r j x).
Proof. unfold swap; simpl. now intros ->. Qed.

Lemma insert_by_last (key : A -> Z) x acc :
  (forall y, In y acc -> (key y <= key x)%Z) ->
  insert_by key x acc = acc ++ [x].
Proof.
  induction acc as [|y r IH]; simpl; intros H; [reflexivity|].
  destruct (Z.ltb_spec (key x) (key y)) as [Hlt|Hge].
  - specialize (H y (or_introl eq_refl)). lia.
  - f_equal. apply IH. intros z Hz. apply H. now right.
Qed.

(** A list whose keys never decrease is left as it is by the sort. *)
Lemma sort_by_sorted (key : A -> Z) (l : list A) :
  (forall i j x y, (i <= j)%nat -> nth_error l i = Some x ->
                   nth_error l j = Some y -> (key x <= key y)%Z) ->
  sort_by key l = l.
Proof.
  unfold sort_by. intros H.
  assert (G : forall acc l',
             acc ++ l' = l ->
             fold_left (fun acc x => insert_by key x acc) l' acc = l).
  { intros acc l'; revert acc.
    induction l' as [|x r IH]; intros acc E; simpl.
    - now rewrite app_nil_r in E.
    - rewrite insert_by_last.
      + apply IH. now rewrite <- app_assoc.
      + intros y Hy. apply In_nth_error in Hy as [i Hi].
        assert (Hlen : (i < List.length acc)%nat)
          by (apply nth_error_Some; congruence).
        apply (H i (List.length acc) y x); [lia| |].
        * rewrite <- E, nth_error_app1; assumption.
        * rewrite <- E, nth_error_app2, Nat.sub_diag; [reflexivity|lia]. }
  now apply (G [] l).
Qed.

End ListFacts.

(** ** Dictionaries *)

Section DictFacts.

Context {V : Type}.

Lemma get_None_keys (d : dict V) k : PyDict.get d k = None <-> ~ In k (keys d).
Proof.
  induction d as [|[k' v] r IH]; simpl; [tauto|].
  destruct (String.eqb_spec k k') as [->|NE].
  - split; [discriminate | intros H; exfalso; apply H; now left].
  - rewrite IH. split; [intros H [E|Hin]; [congruence|tauto] | tauto].
Qed.

Lemma mem_keys (d : dict V) k : PyDict.mem d k = true <-> In k (keys d).
Proof.
  unfold PyDict.mem. pose proof (get_None_keys d k) as H.
  destruct (PyDict.get d k).
  - split; [intros _|reflexivity].
    destruct (in_dec string_dec k (keys d)) as [Hin|Hn]; [assumption|].
    apply H in Hn. discriminate.
  - split; [discriminate|]. intros Hin. exfalso. now apply H.
Qed.

(** Assigning to a key that is not yet there adds it at the end. *)
Lemma set_fresh (d : dict V) k v :
  ~ In k (keys d) -> PyDict.set d k v = d ++ [(k, v)].
Proof.
  induction d as [|[k' v'] r IH]; simpl; intros H; [reflexivity|].
  destruct (String.eqb_spec k k') as [->|NE]; [tauto|].
  f_equal. apply IH. tauto.
Qed.

End DictFacts.

(** ** The catalog *)

Ltac each_stage H :=
  repeat (destruct H as [<-|H]); [..|contradiction].

Lemma STAGE_NAMES_NoDup : NoDup STAGE_NAMES.
Proof.
  repeat (constructor; [simpl; intuition discriminate|]). constructor.
Qed.

Lemma abbr_table_get stage :
  In stage STAGE_NAMES -> PyDict.get abbr_table stage = Some (abbr_of stage).
Proof. intros H. each_stage H; reflexivity. Qed.

Lemma abbr_of_inj s1 s2 :
  In s1 STAGE_NAMES -> In s2 STAGE_NAMES -> abbr_of s1 = abbr_of s2 -> s1 = s2.
Proof.
  intros H1 H2. each_stage H1; each_stage H2;
    solve [reflexivity | intros E; vm_compute in E; discriminate E].
Qed.

Lemma invert_abbr_table_get stage :
  In stage STAGE_NAMES ->
  PyDict.get (invert abbr_table) (abbr_of stage) = Some stage.
Proof. intros H. each_stage H; reflexivity. Qed.

Lemma build_stage_abbrs_run w : build_stage_abbrs w = Ok abbr_table w.
Proof. reflexivity. Qed.

Lemma abbr_keys_NoDup (l : list string) :
  NoDup l -> incl l STAGE_NAMES -> NoDup (map abbr_of l).
Proof.
  induction 1 as [|x l Hx Hnd IH]; intros Hincl; simpl; constructor.
  - intros Hin. apply in_map_iff in Hin as (y & E & Hy).
    apply abbr_of_inj in E; [subst; contradiction| |];
      apply Hincl; simpl; auto.
  - apply IH. intros y Hy. apply Hincl. now right.
Qed.

(** The stages that are not banned, and the banned ones, make up the
    catalog. *)
Lemma remaining_of_NoDup banned : NoDup (remaining_of banned).
Proof. apply NoDup_filter, STAGE_NAMES_NoDup. Qed.

Lemma remaining_of_In banned s :
  In s (remaining_of banned) <-> In s STAGE_NAMES /\ ~ In s banned.
Proof.
  unfold remaining_of. rewrite filter_In, negb_true_iff, mem_not_In. tauto.
Qed.

Lemma banned_remaining_perm banned :
  NoDup banned -> incl banned STAGE_NAMES ->
  Permutation (banned ++ remaining_of banned) STAGE_NAMES.
Proof.
  intros Hnd Hincl. apply NoDup_Permutation.
  - apply NoDup_app; [assumption | apply remaining_of_NoDup |].
    intros a Ha Hr. apply remaining_of_In in Hr. tauto.
  - apply STAGE_NAMES_NoDup.
  - intros x. rewrite in_app_iff, remaining_of_In. split.
    + intros [H|[H _]]; [now apply Hincl | assumption].
    + intros H. destruct (in_dec string_dec x banned); tauto.
Qed.

Lemma remaining_of_length banned :
  NoDup banned -> incl banned STAGE_NAMES ->
  (List.length banned + List.length (remaining_of banned) = 9)%nat.
Proof.
  intros Hnd Hincl. rewrite <- length_app.
  now rewrite (Permutation_length (banned_remaining_perm banned Hnd Hincl)).
Qed.

(** ** Assignments into [order_dict] *)

Section Assign.

Context {A : Type}.
Variables (stage_at : A -> string) (value_at : A -> string).

(** The body shared by the loops that write [order_dict]. *)
Let assign (od : dict string) (x : A) : dict string :=
  match PyDict.get abbr_table (stage_at x) with
  | Some abbr => PyDict.set od abbr (value_at x)
  | None => od
  end.

Lemma fold_assign (l : list A) (od : dict string) :
  (forall x, In x l -> In (stage_at x) STAGE_NAMES) ->
  NoDup (map stage_at l) ->
  (forall x, In x l -> ~ In (abbr_of (stage_at x)) (keys od)) ->
  fold_left assign l od
  = od ++ map (fun x => (abbr_of (stage_at x), value_at x)) l.
Proof.
  revert od. induction l as [|x l IH]; intros od Hcat Hnd Hfresh; simpl.
  - now rewrite app_nil_r.
  - inversion Hnd as [|? ? Hx Hl]; subst.
    unfold assign at 2.
    rewrite abbr_table_get by (apply Hcat; now left).
    rewrite set_fresh by (apply Hfresh; now left).
    rewrite IH; [now rewrite <- app_assoc| | assumption |].
    + intros y Hy. apply Hcat. now right.
    + intros y Hy. unfold keys. rewrite map_app, in_app_iff. simpl.
      intros [Hin|[E|[]]].
      * apply (Hfresh y); [now right | exact Hin].
      * apply abbr_of_inj in E; [| apply Hcat; now left
                                  | apply Hcat; now right].
        apply Hx. rewrite E. now apply in_map.
Qed.

End Assign.

(** ** The module [random] *)

Lemma advance_0 w : advance 0 w = w.
Proof. destruct w; unfold advance; simpl. now rewrite Nat.add_0_r. Qed.

Lemma advance_advance n m w : advance m (advance n w) = advance (n + m) w.
Proof. unfold advance; simpl. now rewrite Nat.add_assoc. Qed.

Lemma same_draws_le n m w1 w2 :
  (m <= n)%nat -> same_draws n w1 w2 -> same_draws m w1 w2.
Proof. intros Hle H i Hi. apply H. lia. Qed.

Lemma same_draws_advance n k w1 w2 :
  same_draws (k + n) w1 w2 -> same_draws n (advance k w1) (advance k w2).
Proof.
  intros H i Hi. unfold advance; simpl.
  rewrite <- !Nat.add_assoc. apply H. lia.
Qed.

Lemma same_draws_refl n w : same_draws n w w.
Proof. intros i _. reflexivity. Qed.

Lemma randbelow_run n w :
  randbelow n w = Ok (tape w (cursor w) mod n)%N (advance 1 w).
Proof. unfold randbelow, advance. now rewrite Nat.add_1_r. Qed.

Lemma randbelow_lt n w :
  (0 < n)%nat -> (N.to_nat (tape w (cursor w) mod N.of_nat n) < n)%nat.
Proof.
  intros Hn.
  assert (tape w (cursor w) mod N.of_nat n < N.of_nat n)%N
    by (apply N.mod_lt; lia).
  lia.
Qed.

(** Two runs of the shuffle that read the same draws return the same
    rearrangement of the list, each after [i] draws. *)
Lemma shuffle_loop_run {A} i (x : list A) w1 w2 :
  (i < List.length x)%nat -> same_draws i w1 w2 ->
  exists x', shuffle_loop i x w1 = Ok x' (advance i w1)
             /\ shuffle_loop i x w2 = Ok x' (advance i w2)
             /\ Permutation x x'.
Proof.
  revert x w1 w2. induction i as [|i IH]; intros x w1 w2 Hlen Hsame.
  - exists x. simpl. unfold ret. rewrite !advance_0. auto.
  - cbn [shuffle_loop]. unfold bind. rewrite !randbelow_run.
    assert (E : tape w2 (cursor w2) = tape w1 (cursor w1)).
    { specialize (Hsame 0%nat ltac:(lia)). now rewrite !Nat.add_0_r in Hsame. }
    rewrite E.
    pose proof (randbelow_lt (S i + 1) w1 ltac:(lia)) as Hj.
    set (j := N.to_nat (tape w1 (cursor w1) mod N.of_nat (S i + 1))) in *.
    destruct (swap_some x (S i) j ltac:(lia) ltac:(lia)) as (x1 & Hs & Hp).
    rewrite Hs. cbn [of_option]. unfold ret.
    destruct (IH x1 (advance 1 w1) (advance 1 w2)) as (x' & H1 & H2 & Hp').
    + rewrite <- (Permutation_length Hp). lia.
    + apply same_draws_advance. exact Hsame.
    + exists x'. rewrite H1, H2, !advance_advance. repeat split.
      eapply perm_trans; eassumption.
Qed.

Lemma shuffle_run {A} (x : list A) w1 w2 :
  same_draws (List.length x - 1) w1 w2 ->
  exists x', shuffle x w1 = Ok x' (advance (List.length x - 1) w1)
             /\ shuffle x w2 = Ok x' (advance (List.length x - 1) w2)
             /\ Permutation x x'.
Proof.
  intros Hsame. unfold shuffle. destruct x as [|a x].
  - exists []. simpl. unfold ret. rewrite !advance_0. auto.
  - apply shuffle_loop_run; [simpl; lia | assumption].
Qed.

(** ** The correction for Security Hall *)

Lemma avoid_other l w :
  hd_error l <> Some SECURITY_HALL -> avoid_security_hall_first l w = Ok l w.
Proof.
  destruct l as [|first r]; simpl; intros H; [reflexivity|].
  destruct (String.eqb_spec first "Security Hall") as [->|NE];
    [now elim H | reflexivity].
Qed.

(** With Security Hall in front and something behind it, one draw picks
    the position [k] in [[1, len - 1]] it changes places with. *)
Lemma avoid_first r w :
  r <> [] ->
  let k := S (N.to_nat (tape w (cursor w) mod N.of_nat (List.length r))) in
  exists b, nth_error r (k - 1) = Some b
            /\ (1 <= k <= List.length (SECURITY_HALL :: r) - 1)%nat
            /\ swap (SECURITY_HALL :: r) 0 k
               = Some (b :: update r (k - 1) SECURITY_HALL)
            /\ avoid_security_hall_first (SECURITY_HALL :: r) w
               = Ok (b :: update r (k - 1) SECURITY_HALL) (advance 1 w).
Proof.
  intros Hr k.
  assert (Hlen : (0 < List.length r)%nat) by (destruct r; simpl; [congruence|lia]).
  pose proof (randbelow_lt (List.length r) w Hlen) as Hj.
  subst k. set (j := N.to_nat _) in *.
  replace (S j - 1)%nat with j by lia.
  destruct (nth_error r j) as [b|] eqn:E;
    [|apply nth_error_None in E; lia].
  exists b. split; [reflexivity|]. split; [simpl; lia|].
  pose proof (swap_head SECURITY_HALL r j b E) as Hs.
  split; [exact Hs|].
  unfold avoid_security_hall_first, SECURITY_HALL.
  rewrite String.eqb_refl. unfold randint.
  replace (Z.of_nat (List.length ("Security Hall" :: r)) - 1 + 1 - 1)%Z
    with (Z.of_nat (List.length r)) by (simpl List.length; lia).
  destruct (Z.ltb_spec 0 (Z.of_nat (List.length r))) as [_|Hbad]; [|lia].
  unfold bind. rewrite randbelow_run. unfold ret.
  replace (Z.to_N (Z.of_nat (List.length r))) with (N.of_nat (List.length r))
    by lia.
  replace (Z.to_nat (1 + Z.of_N (tape w (cursor w) mod N.of_nat (List.length r))))
    with (S j)
    by (unfold j; generalize (tape w (cursor w) mod N.of_nat (List.length r))%N;
        intros; lia).
  unfold SECURITY_HALL in Hs. rewrite Hs. reflexivity.
Qed.


Lemma avoid_run l w1 w2 :
  NoDup l -> l <> [SECURITY_HALL] -> (l <> [] -> same_draws 1 w1 w2) ->
  exists l' n,
    (n <= 1)%nat
    /\ avoid_security_hall_first l w1 = Ok l' (advance n w1)
    /\ avoid_security_hall_first l w2 = Ok l' (advance n w2)
    /\ Permutation l l'
    /\ hd_error l' <> Some SECURITY_HALL.
Proof.
  intros Hnd Hne Hsame.
  assert (Hcase : (exists r, l = SECURITY_HALL :: r)
                  \/ hd_error l <> Some SECURITY_HALL).
  { destruct l as [|first r]; [right; discriminate|].
    destruct (string_dec first SECURITY_HALL) as [->|NE].
    - left. now exists r.
    - right. simpl. congruence. }
  destruct Hcase as [[r ->]|Hh].
  - assert (Hr : r <> []) by (intros ->; now apply Hne).
    destruct (avoid_first r w1 Hr) as (b & Hb & _ & Hs & H1).
    destruct (avoid_first r w2 Hr) as (b2 & Hb2 & _ & _ & H2).
    assert (Et : tape w2 (cursor w2) = tape w1 (cursor w1)).
    { specialize (Hsame ltac:(discriminate) 0%nat ltac:(lia)).
      now rewrite !Nat.add_0_r in Hsame. }
    rewrite Et in *. rewrite Hb in Hb2. injection Hb2 as <-.
    eexists; exists 1%nat. split; [lia|]. split; [exact H1|].
    split; [exact H2|]. split.
    + now apply update_front_perm.
    + simpl. intros [= ->]. inversion Hnd as [|? ? Hin _]; subst.
      apply Hin. eapply nth_error_In; eassumption.
  - exists l, 0%nat. rewrite !advance_0.
    rewrite !avoid_other by assumption. auto.
Qed.

(** ** [generate_ordered_stages] *)

Lemma enumerate_from_snd {A} start (l : list A) :
  map snd (enumerate_from start l) = l.
Proof.
  revert start; induction l as [|x l IH]; intros start; simpl;
    [reflexivity | now rewrite IH].
Qed.

Lemma enumerate_from_nth {A} start (l : list A) i x :
  nth_error l i = Some x ->
  nth_error (enumerate_from start l) i = Some ((start + Z.of_nat i)%Z, x).
Proof.
  revert start i; induction l as [|y l IH]; intros start [|i]; simpl;
    try discriminate.
  - intros [= ->]. now rewrite Z.add_0_r.
  - intros H. rewrite (IH (start + 1)%Z i H). do 2 f_equal. lia.
Qed.

Lemma zero_banned_run banned :
  NoDup banned -> incl banned STAGE_NAMES ->
  zero_banned abbr_table banned []
  = map (fun stage => (abbr_of stage, "0"%string)) banned.
Proof.
  intros Hnd Hincl. unfold zero_banned.
  apply (fold_assign (fun s => s) (fun _ => "0"%string) banned []).
  - exact Hincl.
  - now rewrite map_id.
  - intros x _ [].
Qed.

Lemma order_dict_run banned remaining :
  NoDup banned -> incl banned STAGE_NAMES -> NoDup remaining ->
  (forall s, In s remaining -> In s STAGE_NAMES /\ ~ In s banned) ->
  number_remaining abbr_table remaining (zero_banned abbr_table banned [])
  = map (fun p => (abbr_of (fst p), str (snd p))) (ranked banned remaining).
Proof.
  intros Hnd Hincl Hndr Hrem.
  rewrite zero_banned_run by assumption.
  unfold number_remaining, ranked.
  rewrite map_app, !map_map. simpl.
  apply (fold_assign snd (fun e => str (fst e + 1))).
  - intros x Hx. apply Hrem.
    rewrite <- (enumerate_from_snd 0%Z remaining). now apply in_map.
  - unfold enumerate. now rewrite enumerate_from_snd.
  - intros x Hx. unfold keys. rewrite map_map. simpl.
    intros Hin. apply in_map_iff in Hin as (b & E & Hb).
    assert (Hs : In (snd x) remaining).
    { rewrite <- (enumerate_from_snd 0%Z remaining). now apply in_map. }
    destruct (Hrem _ Hs) as [Hcat Hnb].
    apply abbr_of_inj in E; [congruence | now apply Hincl | assumption].
Qed.

Lemma fill_missing_full od w :
  (forall s, In s STAGE_NAMES -> In (abbr_of s) (keys od)) ->
  fill_missing abbr_table od w = Ok od w.
Proof.
  unfold fill_missing. intros H.
  assert (G : forall L, incl L STAGE_NAMES ->
    for_fold L od (fun od stage =>
      abbr <- getitem abbr_table stage ;;
      if PyDict.mem od abbr then ret od
      else ret (PyDict.set od abbr "0"%string)) w = Ok od w).
  { induction L as [|s L IH]; intros Hincl; simpl; [reflexivity|].
    unfold bind, getitem.
    rewrite abbr_table_get by (apply Hincl; now left). unfold ret at 1.
    assert (Hm : PyDict.mem od (abbr_of s) = true)
      by (apply mem_keys, H, Hincl; now left).
    rewrite Hm. unfold ret at 1. apply IH.
    intros y Hy. apply Hincl. now right. }
  apply G, incl_refl.
Qed.

Lemma collect_ordered_run (l : list (string * Z)) w :
  (forall p, In p l -> In (fst p) STAGE_NAMES) ->
  collect_ordered (invert abbr_table)
    (map (fun p => (abbr_of (fst p), str (snd p))) l) w
  = Ok (map (fun p => (fst p, snd p, abbr_of (fst p))) l) w.
Proof.
  unfold collect_ordered. intros H.
  assert (G : forall acc,
    for_fold (map (fun p => (abbr_of (fst p), str (snd p))) l) acc
      (fun ordered e =>
         stage_name <- getitem (invert abbr_table) (fst e) ;;
         order_value <- of_option (int (snd e))
                          (ValueError "invalid literal for int()") ;;
         ret (ordered ++ [(stage_name, order_value, fst e)])) w
    = Ok (acc ++ map (fun p => (fst p, snd p, abbr_of (fst p))) l) w).
  { induction l as [|p l IH]; intros acc; simpl.
    - now rewrite app_nil_r.
    - unfold bind at 1. unfold bind at 1. unfold getitem.
      rewrite invert_abbr_table_get by (apply H; now left).
      unfold ret at 1. unfold bind at 1. rewrite int_str. simpl of_option.
      unfold ret at 1. unfold ret at 1.
      rewrite IH by (intros q Hq; apply H; now right).
      now rewrite <- app_assoc. }
  apply (G []).
Qed.

Lemma ranked_stages banned remaining :
  map fst (ranked banned remaining) = banned ++ remaining.
Proof.
  unfold ranked, enumerate. rewrite map_app, !map_map. simpl.
  rewrite map_id. f_equal.
  rewrite <- (enumerate_from_snd 0%Z remaining) at 2.
  reflexivity.
Qed.

(** Once the shuffle and the correction have returned [remaining], the
    rest of the method cannot fail and returns the ordering of that
    sequence. *)
Lemma generate_tail w shuffled wa remaining wb :
  let banned := banned_stages (self w) in
  NoDup banned -> incl banned STAGE_NAMES ->
  shuffle (remaining_of banned) w = Ok shuffled wa ->
  avoid_security_hall_first shuffled wa = Ok remaining wb ->
  Permutation (remaining_of banned) remaining ->
  generate_ordered_stages w
  = Ok (ordering_of banned remaining, abbr_table)
       (with_self (set_ordered_stages (ordering_of banned remaining)) wb).
Proof.
  intros banned Hnd Hincl Hsh Hav Hperm.
  assert (Hrem : forall s, In s remaining -> In s STAGE_NAMES /\ ~ In s banned).
  { intros s Hs. apply remaining_of_In.
    eapply Permutation_in; [apply Permutation_sym|]; eassumption. }
  assert (Hndr : NoDup remaining).
  { eapply Permutation_NoDup; [eassumption | apply remaining_of_NoDup]. }
  unfold generate_ordered_stages.
  unfold bind at 1. rewrite build_stage_abbrs_run.
  unfold bind at 1. unfold get_self.
  unfold bind at 1. fold banned. rewrite Hsh.
  unfold bind at 1. rewrite Hav.
  rewrite order_dict_run by assumption.
  unfold bind at 1. rewrite fill_missing_full.
  - unfold bind at 1. rewrite collect_ordered_run.
    + reflexivity.
    + intros p Hp. apply (in_map fst) in Hp.
      rewrite ranked_stages in Hp. apply in_app_or in Hp as [Hb|Hr];
        [now apply Hincl | now apply Hrem].
  - intros s Hs. unfold keys. rewrite map_map. simpl.
    rewrite <- (map_map fst abbr_of), ranked_stages. apply in_map.
    eapply Permutation_in; [apply Permutation_app_head, Hperm|].
    eapply Permutation_in; [|exact Hs].
    apply Permutation_sym, banned_remaining_perm; assumption.
Qed.

(** Two runs on the same bans that read the same draws: the shuffle, the
    correction and the ordering they return. *)
Lemma generate_run w1 w2 :
  let banned := banned_stages (self w1) in
  let len := List.length (remaining_of banned) in
  banned_stages (self w2) = banned ->
  NoDup banned -> incl banned STAGE_NAMES ->
  remaining_of banned <> [SECURITY_HALL] ->
  same_draws len w1 w2 ->
  exists shuffled remaining n,
    (n <= 1)%nat
    /\ shuffle (remaining_of banned) w1 = Ok shuffled (advance (len - 1) w1)
    /\ Permutation (remaining_of banned) shuffled
    /\ avoid_security_hall_first shuffled (advance (len - 1) w1)
       = Ok remaining (advance (len - 1 + n) w1)
    /\ Permutation (remaining_of banned) remaining
    /\ hd_error remaining <> Some SECURITY_HALL
    /\ generate_ordered_stages w1
       = Ok (ordering_of banned remaining, abbr_table)
            (with_self (set_ordered_stages (ordering_of banned remaining))
                       (advance (len - 1 + n) w1))
    /\ generate_ordered_stages w2
       = Ok (ordering_of banned remaining, abbr_table)
            (with_self (set_ordered_stages (ordering_of banned remaining))
                       (advance (len - 1 + n) w2)).
Proof.
  intros banned len Hb2 Hnd Hincl Hne Hsame.
  destruct (shuffle_run (remaining_of banned) w1 w2) as (sh & Hs1 & Hs2 & Hp).
  { eapply same_draws_le; [|exact Hsame]. unfold len. lia. }
  fold len in Hs1, Hs2.
  assert (Hndsh : NoDup sh)
    by (eapply Permutation_NoDup; [exact Hp | apply remaining_of_NoDup]).
  assert (Hnesh : sh <> [SECURITY_HALL]).
  { intros ->. apply Hne. now apply Permutation_length_1_inv, Permutation_sym. }
  destruct (avoid_run sh (advance (len - 1) w1) (advance (len - 1) w2))
    as (rem & n & Hn & Ha1 & Ha2 & Hp2 & Hhd); [assumption..| |].
  { intros Hsh. apply same_draws_advance.
    eapply same_draws_le; [|exact Hsame].
    assert (List.length sh <> 0)%nat by (destruct sh; simpl; congruence).
    unfold len. rewrite (Permutation_length Hp). lia. }
  rewrite !advance_advance in Ha1, Ha2.
  assert (Hp3 : Permutation (remaining_of banned) rem)
    by (eapply perm_trans; eassumption).
  exists sh, rem, n. repeat split; try assumption.
  - eapply generate_tail; eassumption.
  - pose proof (generate_tail w2 sh (advance (len - 1) w2) rem
                  (advance (len - 1 + n) w2)) as G.
    cbv zeta in G. rewrite Hb2 in G. apply G; assumption.
Qed.

(** ** The ordering and the active sequence *)

Lemma rank_in_ranked (l : list (string * Z)) s r :
  NoDup (map fst l) -> In (s, r) l ->
  rank_in (map (fun p => (fst p, snd p, abbr_of (fst p))) l) s = Some r.
Proof.
  induction l as [|[s' r'] l IH]; simpl; [contradiction|].
  intros Hnd [E|Hin].
  - injection E as -> ->. now rewrite String.eqb_refl.
  - inversion Hnd as [|? ? Hs' Hl]; subst.
    destruct (String.eqb_spec s s') as [->|NE]; [|now apply IH].
    exfalso. apply Hs'. change s' with (fst (s', r)). now apply in_map.
Qed.

Lemma filter_banned_part banned :
  filter (fun e : string * Z * string => (0 <? snd (fst e))%Z)
    (map (fun p => (fst p, snd p, abbr_of (fst p)))
         (map (fun stage => (stage, 0%Z)) banned)) = [].
Proof. induction banned as [|b l IH]; simpl; [reflexivity | exact IH]. Qed.

Lemma filter_numbered_part start remaining :
  (0 <= start)%Z ->
  filter (fun e : string * Z * string => (0 <? snd (fst e))%Z)
    (map (fun p => (fst p, snd p, abbr_of (fst p)))
         (map (fun e => (snd e, (fst e + 1)%Z))
              (enumerate_from start remaining)))
  = map (fun p => (fst p, snd p, abbr_of (fst p)))
        (map (fun e => (snd e, (fst e + 1)%Z))
             (enumerate_from start remaining)).
Proof.
  revert start. induction remaining as [|x l IH]; intros start Hs; simpl;
    [reflexivity|].
  destruct (Z.ltb_spec 0 (start + 1)) as [_|Hbad]; [|lia].
  f_equal. apply IH. lia.
Qed.

(** The active sequence read back from an ordering is the sequence the
    ordering was numbered from. *)
Lemma stage_order_of_ordering banned remaining :
  stage_order_of (ordering_of banned remaining) = remaining.
Proof.
  unfold stage_order_of, ordering_of, ranked.
  rewrite map_app, filter_app, filter_banned_part.
  unfold enumerate. rewrite filter_numbered_part by lia. simpl app.
  rewrite !map_map. simpl.
  rewrite sort_by_sorted.
  - rewrite map_map. simpl. apply enumerate_from_snd.
  - intros i j x y Hij Hx Hy.
    rewrite nth_error_map in Hx, Hy.
    destruct (nth_error (enumerate_from 0 remaining) i) as [[ki si]|] eqn:Ei;
      [|discriminate].
    destruct (nth_error (enumerate_from 0 remaining) j) as [[kj sj]|] eqn:Ej;
      [|discriminate].
    injection Hx as <-. injection Hy as <-. simpl.
    assert (Hi : nth_error remaining i = Some si).
    { rewrite <- (enumerate_from_snd 0%Z remaining), nth_error_map, Ei.
      reflexivity. }
    assert (Hj : nth_error remaining j = Some sj).
    { rewrite <- (enumerate_from_snd 0%Z remaining), nth_error_map, Ej.
      reflexivity. }
    rewrite (enumerate_from_nth 0%Z _ _ _ Hi) in Ei.
    rewrite (enumerate_from_nth 0%Z _ _ _ Hj) in Ej.
    injection Ei as <-. injection Ej as <-. lia.
Qed.

Lemma ordering_stages banned remaining :
  map (fun e => fst (fst e)) (ordering_of banned remaining)
  = banned ++ remaining.
Proof.
  unfold ordering_of. rewrite map_map. simpl. apply ranked_stages.
Qed.

Lemma rank_in_banned banned remaining s :
  NoDup (banned ++ remaining) -> In s banned ->
  rank_in (ordering_of banned remaining) s = Some 0%Z.
Proof.
  intros Hnd Hin. apply rank_in_ranked.
  - now rewrite ranked_stages.
  - unfold ranked. apply in_or_app. left.
    apply in_map_iff. now exists s.
Qed.

Lemma rank_in_remaining banned remaining :
  NoDup (banned ++ remaining) ->
  map (rank_in (ordering_of banned remaining)) remaining
  = map (fun e => Some (fst e + 1)%Z) (enumerate remaining).
Proof.
  intros Hnd.
  rewrite <- (enumerate_from_snd 0%Z remaining) at 2.
  rewrite map_map. apply map_ext_in. intros [k s] Hin. simpl.
  apply rank_in_ranked.
  - now rewrite ranked_stages.
  - unfold ranked. apply in_or_app. right.
    apply in_map_iff. now exists (k, s).
Qed.

Lemma randint_run a b w :
  (a <= b)%Z ->
  let k := (a + Z.of_N (tape w (cursor w) mod Z.to_N (b + 1 - a)))%Z in
  randint a b w = Ok k (advance 1 w) /\ (a <= k <= b)%Z.
Proof.
  intros Hab k. unfold randint.
  destruct (Z.ltb_spec 0 (b + 1 - a)) as [_|Hbad]; [|lia].
  unfold bind. rewrite randbelow_run. unfold ret. split; [reflexivity|].
  assert (tape w (cursor w) mod Z.to_N (b + 1 - a) < Z.to_N (b + 1 - a))%N
    by (apply N.mod_lt; lia).
  subst k. revert H.
  generalize (tape w (cursor w) mod Z.to_N (b + 1 - a))%N. intros; lia.
Qed.

Lemma randint_empty a b w :
  (b < a)%Z -> randint a b w = Raise (ValueError "empty range for randrange()") w.
Proof.
  intros Hab. unfold randint.
  destruct (Z.ltb_spec 0 (b + 1 - a)) as [Hbad|_]; [lia | reflexivity].
Qed.

Lemma two_bans a b :
  In a STAGE_NAMES -> In b STAGE_NAMES -> a <> b ->
  NoDup [a; b] /\ incl [a; b] STAGE_NAMES
  /\ List.length (remaining_of [a; b]) = 7%nat.
Proof.
  intros Ha Hb Hab.
  assert (Hnd : NoDup [a; b]).
  { constructor; [simpl; intuition congruence|].
    constructor; [simpl; tauto | constructor]. }
  assert (Hincl : incl [a; b] STAGE_NAMES).
  { intros x [<-|[<-|[]]]; assumption. }
  repeat split; try assumption.
  pose proof (remaining_of_length [a; b] Hnd Hincl) as H. simpl in H. lia.
Qed.

Lemma long_remaining_ok banned :
  (2 <= List.length (remaining_of banned))%nat ->
  remaining_of banned <> [SECURITY_HALL].
Proof. intros H E. rewrite E in H. simpl in H. lia. Qed.

(** C1. With two distinct catalog stages banned, generation returns an
    ordering in which every catalog stage appears once, the two banned
    stages have rank 0, and the active sequence consists of the seven other
    stages, whose ranks read in sequence are 1, 2, ..., 7. *)
Theorem generate_ordered_stages_ranks (w : World) (a b : string) :
  banned_stages (self w) = [a; b] ->
  In a STAGE_NAMES -> In b STAGE_NAMES -> a <> b ->
  exists ordered abbrs w',
    generate_ordered_stages w = Ok (ordered, abbrs) w'
    /\ ordered_stages (self w') = ordered
    /\ Permutation (map (fun e => fst (fst e)) ordered) STAGE_NAMES
    /\ rank_in ordered a = Some 0%Z
    /\ rank_in ordered b = Some 0%Z
    /\ List.length (stage_order_of ordered) = 7%nat
    /\ (forall s, In s (stage_order_of ordered)
                  <-> In s STAGE_NAMES /\ s <> a /\ s <> b)
    /\ map (rank_in ordered) (stage_order_of ordered)
       = map Some [1; 2; 3; 4; 5; 6; 7]%Z.
Proof.
  intros Hb Ha Hbb Hab.
  destruct (two_bans a b Ha Hbb Hab) as (Hnd & Hincl & Hlen).
  destruct (generate_run w w) as (sh & rem & n & _ & _ & _ & _ & Hp & _ & G & _);
    rewrite ?Hb; try assumption; try reflexivity.
  { apply long_remaining_ok. lia. }
  { apply same_draws_refl. }
  rewrite Hb in G, Hp.
  assert (Hnd2 : NoDup ([a; b] ++ rem)).
  { eapply Permutation_NoDup; [|apply STAGE_NAMES_NoDup].
    apply Permutation_sym.
    eapply perm_trans; [apply Permutation_app_head, Permutation_sym, Hp|].
    now apply banned_remaining_perm. }
  eexists _, _, _. split; [exact G|].
  rewrite stage_order_of_ordering, ordering_stages.
  split; [reflexivity|]. split.
  { eapply perm_trans; [apply Permutation_app_head, Permutation_sym, Hp|].
    now apply banned_remaining_perm. }
  split; [apply rank_in_banned; simpl; auto|].
  split; [apply rank_in_banned; simpl; auto|].
  assert (Hlen' : List.length rem = 7%nat)
    by now rewrite <- (Permutation_length Hp).
  split; [exact Hlen'|]. split.
  { intros s. split.
    - intros Hs. eapply Permutation_in in Hs; [|apply Permutation_sym, Hp].
      apply remaining_of_In in Hs as [Hs Hn].
      split; [exact Hs|]. split; intros ->; apply Hn; simpl; auto.
    - intros (Hs & Hsa & Hsb). eapply Permutation_in; [exact Hp|].
      apply remaining_of_In. split; [exact Hs|].
      intros [<-|[<-|[]]]; congruence. }
  rewrite rank_in_remaining by assumption.
  do 8 (destruct rem as [|? rem]; try discriminate Hlen'). reflexivity.
Qed.

Lemma generate_ordered_stages_ranks_witness :
  let w := world_with_bans ["Wild Canyon"; "Pumpkin Hill"] (fun _ => 0%N) in
  exists ordered abbrs w',
    generate_ordered_stages w = Ok (ordered, abbrs) w'
    /\ ordered_stages (self w') = ordered
    /\ Permutation (map (fun e => fst (fst e)) ordered) STAGE_NAMES
    /\ rank_in ordered "Wild Canyon" = Some 0%Z
    /\ rank_in ordered "Pumpkin Hill" = Some 0%Z
    /\ List.length (stage_order_of ordered) = 7%nat
    /\ (forall s, In s (stage_order_of ordered)
                  <-> In s STAGE_NAMES /\ s <> "Wild Canyon"
                      /\ s <> "Pumpkin Hill")
    /\ map (rank_in ordered) (stage_order_of ordered)
       = map Some [1; 2; 3; 4; 5; 6; 7]%Z.
Proof.
  intros w.
  apply (generate_ordered_stages_ranks w "Wild Canyon" "Pumpkin Hill").
  - reflexivity.
  - simpl; auto.
  - simpl; auto.
  - discriminate.
Defined.

Lemma hd_cases (l : list string) :
  (exists r, l = SECURITY_HALL :: r) \/ hd_error l <> Some SECURITY_HALL.
Proof.
  destruct l as [|first r]; [right; discriminate|].
  destruct (string_dec first SECURITY_HALL) as [->|NE].
  - left. now exists r.
  - right. simpl. congruence.
Qed.

(** C2. With two distinct catalog stages banned, Security Hall is never the
    first stage of the active sequence.  The mechanism is the one of the
    source: when the shuffle leaves another stage first the sequence is the
    shuffled one and nothing more is drawn; when it leaves Security Hall
    first, exactly one more draw picks a position [k] in [[1, len - 1]] and
    the sequence is the shuffled one with positions [0] and [k] exchanged. *)
Theorem security_hall_never_first (w : World) (a b : string) :
  banned_stages (self w) = [a; b] ->
  In a STAGE_NAMES -> In b STAGE_NAMES -> a <> b ->
  exists shuffled w1 ordered abbrs w',
    shuffle (remaining_of [a; b]) w = Ok shuffled w1
    /\ generate_ordered_stages w = Ok (ordered, abbrs) w'
    /\ hd_error (stage_order_of ordered) <> Some SECURITY_HALL
    /\ ((hd_error shuffled <> Some SECURITY_HALL
         /\ stage_order_of ordered = shuffled
         /\ cursor w' = cursor w1)
        \/
        (hd_error shuffled = Some SECURITY_HALL
         /\ exists k,
              k = S (N.to_nat (tape w1 (cursor w1)
                               mod N.of_nat (List.length shuffled - 1)))
              /\ (1 <= k <= List.length shuffled - 1)%nat
              /\ swap shuffled 0 k = Some (stage_order_of ordered)
              /\ cursor w' = S (cursor w1))).
Proof.
  intros Hb Ha Hbb Hab.
  destruct (two_bans a b Ha Hbb Hab) as (Hnd & Hincl & Hlen).
  destruct (shuffle_run (remaining_of [a; b]) w w (same_draws_refl _ _))
    as (sh & Hsh & _ & Hp).
  assert (Hlsh : List.length sh = 7%nat)
    by now rewrite <- (Permutation_length Hp).
  assert (Hndsh : NoDup sh)
    by (eapply Permutation_NoDup; [exact Hp | apply remaining_of_NoDup]).
  set (w1 := advance (List.length (remaining_of [a; b]) - 1) w) in *.
  destruct (hd_cases sh) as [[r ->]|Hh].
  - assert (Hr : r <> []) by (intros ->; discriminate).
    destruct (avoid_first r w1 Hr) as (x & Hx & Hk & Hs & Hav).
    set (k := S (N.to_nat (tape w1 (cursor w1)
                           mod N.of_nat (List.length r)))) in *.
    assert (Hp2 : Permutation (remaining_of [a; b]) (x :: update r (k - 1) SECURITY_HALL)).
    { eapply perm_trans; [exact Hp|]. now apply update_front_perm. }
    pose proof (generate_tail w) as G. cbv zeta in G. rewrite Hb in G.
    specialize (G _ _ _ _ Hnd Hincl Hsh Hav Hp2).
    eexists _, w1, _, _, _. split; [exact Hsh|]. split; [exact G|].
    rewrite stage_order_of_ordering. split.
    + simpl. intros [= ->]. inversion Hndsh as [|? ? Hin _]; subst.
      apply Hin. eapply nth_error_In; eassumption.
    + right. split; [reflexivity|]. exists k. split; [|split; [|split]].
      * subst k.
        replace (List.length (SECURITY_HALL :: r) - 1)%nat
          with (List.length r) by (simpl; lia).
        reflexivity.
      * exact Hk.
      * exact Hs.
      * simpl. lia.
  - pose proof (avoid_other sh w1 Hh) as Hav.
    pose proof (generate_tail w) as G. cbv zeta in G. rewrite Hb in G.
    specialize (G _ _ _ _ Hnd Hincl Hsh Hav Hp).
    eexists _, w1, _, _, _. split; [exact Hsh|]. split; [exact G|].
    rewrite stage_order_of_ordering. split; [exact Hh|].
    left. auto.
Qed.

Lemma security_hall_never_first_witness :
  let w := world_with_bans ["Wild Canyon"; "Mad Space"] (fun _ => 6%N) in
  exists shuffled w1 ordered abbrs w',
    shuffle (remaining_of ["Wild Canyon"; "Mad Space"]) w = Ok shuffled w1
    /\ generate_ordered_stages w = Ok (ordered, abbrs) w'
    /\ hd_error (stage_order_of ordered) <> Some SECURITY_HALL
    /\ ((hd_error shuffled <> Some SECURITY_HALL
         /\ stage_order_of ordered = shuffled
         /\ cursor w' = cursor w1)
        \/
        (hd_error shuffled = Some SECURITY_HALL
         /\ exists k,
              k = S (N.to_nat (tape w1 (cursor w1)
                               mod N.of_nat (List.length shuffled - 1)))
              /\ (1 <= k <= List.length shuffled - 1)%nat
              /\ swap shuffled 0 k = Some (stage_order_of ordered)
              /\ cursor w' = S (cursor w1))).
Proof.
  intros w.
  apply (security_hall_never_first w "Wild Canyon" "Mad Space").
  - reflexivity.
  - simpl; auto.
  - simpl; auto 10.
  - discriminate.
Defined.

(** The correction can reach every position behind the first: position
    [k] is chosen by the draw [k - 1]. *)
Lemma every_position_drawn r k t c tr d :
  (1 <= k <= List.length r)%nat ->
  t c = N.of_nat (k - 1) ->
  exists x, avoid_security_hall_first (SECURITY_HALL :: r) (mkWorld d t c tr)
            = Ok (x :: update r (k - 1) SECURITY_HALL)
                 (advance 1 (mkWorld d t c tr))
            /\ swap (SECURITY_HALL :: r) 0 k
               = Some (x :: update r (k - 1) SECURITY_HALL).
Proof.
  intros Hk Ht.
  assert (Hr : r <> []) by (intros ->; simpl in Hk; lia).
  destruct (avoid_first r (mkWorld d t c tr) Hr) as (x & Hx & _ & Hs & Hav).
  simpl tape in *. simpl cursor in *. rewrite Ht in *.
  rewrite N.mod_small in * by lia. rewrite Nat2N.id in *.
  replace (S (k - 1)) with k in * by lia.
  exists x. auto.
Qed.

(** C10. With at most two distinct catalog stages banned at least seven
    stages remain, generation returns, and the draw of the correction is
    taken from the non-empty range [[1, len - 1]]. *)
Theorem generation_never_fails (w : World) :
  NoDup (banned_stages (self w)) ->
  incl (banned_stages (self w)) STAGE_NAMES ->
  (List.length (banned_stages (self w)) <= 2)%nat ->
  (7 <= List.length (remaining_of (banned_stages (self w))))%nat
  /\ (exists r w', generate_ordered_stages w = Ok r w')
  /\ (exists shuffled w1,
        shuffle (remaining_of (banned_stages (self w))) w = Ok shuffled w1
        /\ List.length shuffled
           = List.length (remaining_of (banned_stages (self w)))
        /\ exists swap_idx,
             randint 1 (Z.of_nat (List.length shuffled) - 1) w1
             = Ok swap_idx (advance 1 w1)
             /\ (1 <= swap_idx <= Z.of_nat (List.length shuffled) - 1)%Z).
Proof.
  intros Hnd Hincl Hlen.
  pose proof (remaining_of_length _ Hnd Hincl) as Hsum.
  assert (H7 : (7 <= List.length (remaining_of (banned_stages (self w))))%nat)
    by lia.
  split; [exact H7|].
  destruct (generate_run w w) as (sh & rem & n & _ & Hsh & Hp & _ & _ & _ & G & _);
    try assumption; try reflexivity.
  { apply long_remaining_ok. lia. }
  { apply same_draws_refl. }
  split; [eexists _, _; exact G|].
  exists sh. eexists. split; [exact Hsh|].
  pose proof (Permutation_length Hp) as Hl.
  split; [now symmetry|].
  match goal with |- context [randint ?a ?b ?w1] =>
    destruct (randint_run a b w1 ltac:(lia)) as [Hr Hk] end.
  eexists. split; [exact Hr | exact Hk].
Qed.

Lemma generation_never_fails_witness :
  let w := world_with_bans ["Security Hall"] (fun n => N.of_nat n) in
  (7 <= List.length (remaining_of (banned_stages (self w))))%nat
  /\ (exists r w', generate_ordered_stages w = Ok r w')
  /\ (exists shuffled w1,
        shuffle (remaining_of (banned_stages (self w))) w = Ok shuffled w1
        /\ List.length shuffled
           = List.length (remaining_of (banned_stages (self w)))
        /\ exists swap_idx,
             randint 1 (Z.of_nat (List.length shuffled) - 1) w1
             = Ok swap_idx (advance 1 w1)
             /\ (1 <= swap_idx <= Z.of_nat (List.length shuffled) - 1)%Z).
Proof.
  intros w. apply (generation_never_fails w).
  - simpl. constructor; [simpl; tauto | constructor].
  - intros x [<-|[]]. simpl; auto 10.
  - simpl. lia.
Defined.

(** The failing branch exists: with every stage but Security Hall banned,
    the correction has no position to draw and [randint] raises. *)
Example generation_fails_with_eight_bans :
  exists w',
    generate_ordered_stages
      (world_with_bans
         ["Wild Canyon"; "Pumpkin Hill"; "Death Chamber"; "Aquatic Mine";
          "Meteor Herd"; "Dry Lagoon"; "Egg Quarters"; "Mad Space"]
         (fun _ => 0%N))
    = Raise (ValueError "empty range for randrange()") w'.
Proof. eexists. vm_compute. reflexivity. Qed.

(** ** The segment list *)

Lemma seq_plus5 n : seq 5 n = map (fun k => 5 + k)%nat (seq 0 n).
Proof.
  rewrite <- (map_ext (fun k => S (S (S (S (S k)))))) by reflexivity.
  rewrite <- (map_map (fun k => S (S (S (S k)))) S).
  rewrite <- (map_map (fun k => S (S (S k))) S).
  rewrite <- (map_map (fun k => S (S k)) S).
  rewrite <- (map_map S S).
  now rewrite !seq_shift.
Qed.

Lemma div5_plus k : ((5 + k) / 5 = S (k / 5))%nat.
Proof.
  replace (5 + k)%nat with (k + 1 * 5)%nat by lia.
  rewrite Nat.div_add by lia. lia.
Qed.

Lemma mod5_plus k : ((5 + k) mod 5 = k mod 5)%nat.
Proof.
  replace (5 + k)%nat with (k + 1 * 5)%nat by lia.
  now rewrite Nat.Div0.mod_add.
Qed.

Lemma labels_from_by_position first total stage_order :
  labels_from first total stage_order
  = map (fun k =>
           split_label (nth (k / 5) stage_order "")
                       (Z.of_nat (k mod 5) + 1) (first + Z.of_nat k) total)
        (seq 0 (5 * List.length stage_order)).
Proof.
  revert first. induction stage_order as [|stage r IH]; intros first;
    [reflexivity|].
  replace (5 * List.length (stage :: r))%nat
    with (5 + 5 * List.length r)%nat by (simpl; lia).
  rewrite seq_app, map_app. cbn [labels_from]. f_equal.
  - cbn. unfold stage_labels, split_label. cbn.
    repeat (f_equal; try lia).
  - cbn [Nat.add]. rewrite seq_plus5, map_map, IH.
    apply map_ext. intros k.
    rewrite div5_plus, mod5_plus. cbn [nth]. f_equal. lia.
Qed.

Lemma labels_from_expected stage_order :
  labels_from 1 (Z.of_nat (List.length stage_order) * 5) stage_order
  = expected_labels stage_order.
Proof.
  rewrite labels_from_by_position. unfold expected_labels.
  apply map_ext. intros k. f_equal; lia.
Qed.

Lemma expected_split_list_cons stage r :
  expected_split_list (stage :: r)
  = map (fun i => stage ++ " " ++ str i)%string [1; 2; 3; 4; 5]%Z
    ++ expected_split_list r.
Proof.
  unfold expected_split_list.
  replace (5 * List.length (stage :: r))%nat
    with (5 + 5 * List.length r)%nat by (simpl; lia).
  rewrite seq_app, map_app. f_equal.
  cbn [Nat.add]. rewrite seq_plus5, map_map.
  apply map_ext. intros k. now rewrite div5_plus, mod5_plus.
Qed.

(** The loops of [_create_livesplit_segments], started anywhere. *)
Lemma segments_loop total stage_order :
  forall first segments w,
    for_fold stage_order (first, segments) (fun st stage =>
      for_fold [1; 2; 3; 4; 5]%Z st (fun st i =>
        let split_num := fst st in
        let split_name := (stage ++ " " ++ str i)%string in
        modify_self (fun d =>
          set_split_list (split_list d ++ [split_name]) d) ;;;
        let split_name :=
          (split_name ++ " (" ++ str split_num ++ "/" ++ str total
                      ++ ")")%string in
        ret ((split_num + 1)%Z,
             (snd st ++ [segment_element split_name])))) w
    = Ok ((first + 5 * Z.of_nat (List.length stage_order))%Z,
          segments ++ map segment_element (labels_from first total stage_order))
         (with_self (fun d =>
            set_split_list (split_list d ++ expected_split_list stage_order) d)
            w).
Proof.
  induction stage_order as [|stage r IH]; intros first segments w.
  - cbn. unfold ret, with_self, expected_split_list. cbn.
    rewrite !app_nil_r, Z.add_0_r. destruct w as [[] ? ? ?]; reflexivity.
  - cbn [for_fold]. unfold bind at 1.
    cbn [for_fold]. unfold bind, modify_self, ret. cbn [fst snd self tape cursor trace].
    rewrite IH. f_equal.
    + f_equal; [cbn [List.length]; lia|].
      cbn [labels_from stage_labels map]. unfold split_label.
      rewrite <- !app_assoc. cbn [app]. rewrite !append_assoc.
      replace (first + 1 - 1)%Z with first by lia.
      replace (first + 2 - 1)%Z with (first + 1)%Z by lia.
      replace (first + 3 - 1)%Z with (first + 1 + 1)%Z by lia.
      replace (first + 4 - 1)%Z with (first + 1 + 1 + 1)%Z by lia.
      replace (first + 5 - 1)%Z with (first + 1 + 1 + 1 + 1)%Z by lia.
      replace (first + 5)%Z with (first + 1 + 1 + 1 + 1 + 1)%Z by lia.
      reflexivity.
    + unfold with_self. cbn [self tape cursor trace].
      rewrite expected_split_list_cons.
      destruct w as [[] ? ? ?]; cbn.
      now rewrite <- !app_assoc.
Qed.

Lemma expected_labels_length stage_order :
  List.length (expected_labels stage_order)
  = (5 * List.length stage_order)%nat.
Proof. unfold expected_labels. now rewrite length_map, length_seq. Qed.

Lemma segment_names_elements labels :
  segment_names (map segment_element labels) = map Some labels.
Proof. unfold segment_names. rewrite map_map. reflexivity. Qed.

Lemma create_segments_run stage_order w :
  _create_livesplit_segments [] stage_order
    (Z.of_nat (List.length stage_order) * 5) w
  = Ok (map segment_element (expected_labels stage_order))
       (with_self (set_split_list (expected_split_list stage_order)) w).
Proof.
  unfold _create_livesplit_segments.
  unfold bind at 1. unfold modify_self at 1.
  unfold bind at 1. rewrite segments_loop. unfold ret.
  rewrite labels_from_expected. reflexivity.
Qed.

(** C3. For every active sequence of [N] stages the segments carry exactly
    [5 * N] labels; the label at position [k] (from 0) is
    ["<stage> <i> (<k + 1>/<5 * N>)"] where [stage] is entry [k / 5] of the
    sequence and [i = k mod 5 + 1]: five labels per stage in sequence
    order, running index from 1 to [5 * N] without gaps.  The document
    written by [generate_split_file] holds these segments, for the sequence
    read from the stored ordering; [self.split_list] receives the same
    [5 * N] entries without the running index. *)
Theorem split_labels_exact (stage_order : list string) (w : World) :
  (exists segments w',
     _create_livesplit_segments [] stage_order
       (Z.of_nat (List.length stage_order) * 5) w = Ok segments w'
     /\ List.length segments = (5 * List.length stage_order)%nat
     /\ segment_names segments = map Some (expected_labels stage_order)
     /\ split_list (self w') = expected_split_list stage_order)
  /\ (exists path root w',
        generate_split_file w = Ok path w'
        /\ In (WriteXml path root) (trace w')
        /\ segment_names (segments_of root)
           = map Some (expected_labels
                         (stage_order_of (ordered_stages (self w))))).
Proof.
  split.
  - eexists _, _. split; [apply create_segments_run|].
    rewrite length_map, expected_labels_length, segment_names_elements.
    auto.
  - unfold generate_split_file.
    eexists _, _, _. split.
    + unfold bind at 1. unfold emit at 1.
      unfold bind at 1. unfold get_self at 1.
      cbn [self tape cursor trace].
      unfold bind at 1. rewrite create_segments_run.
      unfold bind, emit, ret. cbn [self tape cursor trace with_self].
      reflexivity.
    + split.
      * cbn [trace]. rewrite !in_app_iff. left. right. left. reflexivity.
      * cbn. rewrite app_nil_r. apply segment_names_elements.
Qed.

(** ** The configuration file *)

Lemma fold_set_fresh {A} (key val : A -> string) (l : list A)
  (od : dict string) :
  NoDup (map key l) ->
  (forall x, In x l -> ~ In (key x) (keys od)) ->
  fold_left (fun od e => PyDict.set od (key e) (val e)) l od
  = od ++ map (fun e => (key e, val e)) l.
Proof.
  revert od. induction l as [|x l IH]; intros od Hnd Hfresh; simpl.
  - now rewrite app_nil_r.
  - inversion Hnd as [|? ? Hx Hl]; subst.
    rewrite set_fresh by (apply Hfresh; now left).
    rewrite IH; [now rewrite <- app_assoc | assumption |].
    intros y Hy. unfold keys. rewrite map_app, in_app_iff. simpl.
    intros [Hin|[E|[]]].
    + apply (Hfresh y); [now right | exact Hin].
    + apply Hx. rewrite E. now apply in_map.
Qed.

Lemma number_dict_run w :
  for_fold STAGE_NAMES [] (fun (nd : dict string) stage =>
    abbr <- getitem abbr_table stage ;;
    ret (PyDict.set nd abbr "5"%string)) w
  = Ok (map (fun stage => (abbr_of stage, "5"%string)) STAGE_NAMES) w.
Proof. reflexivity. Qed.

(** After generation has returned the ordering of [remaining], the rest of
    [build_config] draws the seed and cannot fail. *)
Lemma build_config_tail w banned remaining wg :
  NoDup banned -> incl banned STAGE_NAMES ->
  Permutation (remaining_of banned) remaining ->
  generate_ordered_stages w
  = Ok (ordering_of banned remaining, abbr_table) wg ->
  build_config w
  = Ok (config_of (seed_at wg) banned remaining) (advance 1 wg)
  /\ (1 <= seed_at wg <= MAX_SEED)%Z.
Proof.
  intros Hnd Hincl Hp G.
  assert (Hall : Permutation (banned ++ remaining) STAGE_NAMES).
  { eapply perm_trans; [apply Permutation_app_head, Permutation_sym, Hp|].
    now apply banned_remaining_perm. }
  destruct (randint_run 1 MAX_SEED wg ltac:(unfold MAX_SEED; lia)) as [Hr Hk].
  split; [|exact Hk].
  unfold build_config. unfold bind at 1. rewrite G. cbn [fst snd].
  unfold bind at 1. rewrite Hr. fold (seed_at wg).
  rewrite (fold_set_fresh snd (fun e => str (snd (fst e)))).
  - cbn [app]. unfold bind at 1. rewrite fill_missing_full.
    + unfold bind at 1. rewrite number_dict_run. unfold ret.
      unfold config_of, ordering_of. rewrite map_map. reflexivity.
    + intros s Hs. unfold keys, ordering_of. rewrite !map_map. simpl.
      rewrite <- (map_map fst abbr_of), ranked_stages. apply in_map.
      eapply Permutation_in; [apply Permutation_sym, Hall | exact Hs].
  - unfold ordering_of. rewrite map_map. simpl.
    rewrite <- (map_map fst abbr_of), ranked_stages.
    apply abbr_keys_NoDup.
    + eapply Permutation_NoDup;
        [apply Permutation_sym, Hall | apply STAGE_NAMES_NoDup].
    + intros s Hs. eapply Permutation_in; [exact Hall | exact Hs].
  - intros x _ [].
Qed.

Lemma generate_config_file_run w config w' :
  build_config (with_trace [MakeDirs OUTPUT_DIR] w) = Ok config w' ->
  generate_config_file w
  = Ok ".output/config.ini"%string
       (with_trace [WriteText ".output/config.ini" (config_text config);
                    Print "Generated config file: .output/config.ini"] w').
Proof.
  intros H. unfold generate_config_file.
  unfold bind at 1. unfold emit at 1. fold (with_trace [MakeDirs OUTPUT_DIR] w).
  unfold bind at 1.
  change (OUTPUT_DIR ++ "/" ++ "config.ini")%string
    with ".output/config.ini"%string.
  rewrite H. unfold bind, emit, ret, with_trace. cbn [self tape cursor trace].
  now rewrite <- app_assoc.
Qed.

(** C9. Whenever the ordering can be generated (the bans are distinct
    catalog stages that leave more than Security Hall alone), the [set]
    section written by the configuration writer holds the decimal text of
    an integer seed between 1 and 2^31 - 1 and the fixed flag [ups=True]. *)
Theorem seed_in_range (w : World) :
  NoDup (banned_stages (self w)) ->
  incl (banned_stages (self w)) STAGE_NAMES ->
  remaining_of (banned_stages (self w)) <> [SECURITY_HALL] ->
  exists seed config path w',
    generate_config_file w = Ok path w'
    /\ In (WriteText path (config_text config)) (trace w')
    /\ PyDict.get config "set"
       = Some [("seed"%string, str seed); ("ups"%string, "True"%string)]
    /\ int (str seed) = Some seed
    /\ (1 <= seed <= 2 ^ 31 - 1)%Z.
Proof.
  intros Hnd Hincl Hne.
  set (w0 := with_trace [MakeDirs OUTPUT_DIR] w).
  destruct (generate_run w0 w0) as (sh & rem & n & _ & _ & _ & _ & Hp & _ & G & _);
    try assumption; try reflexivity.
  { apply same_draws_refl. }
  destruct (build_config_tail w0 _ rem _ Hnd Hincl Hp G) as [B Hseed].
  match type of B with
  | _ = Ok (config_of ?seed ?b ?r) _ =>
      exists seed, (config_of seed b r)
  end.
  eexists _, _. split; [apply generate_config_file_run, B|].
  split; [|split; [reflexivity | split; [apply int_str | exact Hseed]]].
  unfold with_trace. cbn [trace]. apply in_or_app. right. now left.
Qed.

Lemma seed_in_range_witness :
  let w := world_with_bans ["Dry Lagoon"; "Egg Quarters"]
                           (fun n => N.of_nat n + 4294967296)%N in
  exists seed config path w',
    generate_config_file w = Ok path w'
    /\ In (WriteText path (config_text config)) (trace w')
    /\ PyDict.get config "set"
       = Some [("seed"%string, str seed); ("ups"%string, "True"%string)]
    /\ int (str seed) = Some seed
    /\ (1 <= seed <= 2 ^ 31 - 1)%Z.
Proof.
  intros w. apply (seed_in_range w).
  - simpl. constructor; [simpl; intuition discriminate|].
    constructor; [simpl; tauto | constructor].
  - intros x [<-|[<-|[]]]; simpl; auto 10.
  - discriminate.
Defined.




(** ** What the two writers depend on *)

Lemma generate_split_file_run w :
  let path := split_file_path (runner1 (self w)) (runner2 (self w)) in
  let stage_order := stage_order_of (ordered_stages (self w)) in
  generate_split_file w
  = Ok path
       (with_trace
          [MakeDirs OUTPUT_DIR;
           WriteXml path
             (split_document
                (map segment_element (expected_labels stage_order))
                (_add_livesplit_settings []));
           Print ("Generated LiveSplit file: " ++ path)%string]
          (with_self (set_split_list (expected_split_list stage_order)) w)).
Proof.
  intros path stage_order. unfold generate_split_file.
  unfold bind at 1. unfold emit at 1.
  unfold bind at 1. unfold get_self at 1. cbn [self tape cursor trace].
  unfold bind at 1. fold stage_order. rewrite create_segments_run.
  unfold bind, emit, ret, with_self, with_trace.
  cbn [self tape cursor trace]. fold path.
  rewrite <- !app_assoc. reflexivity.
Qed.




(** ** The session *)

Lemma resolve_exact_in input items n :
  resolve_exact input items = Some n -> In n (keys items).
Proof.
  induction items as [|[name abbrs] r IH]; simpl; [discriminate|].
  destruct (String.eqb input (lower name)).
  - intros [= <-]. now left.
  - intros H. right. now apply IH.
Qed.

Lemma resolve_abbr_in input items n :
  resolve_abbr input items = Some n -> In n (keys items).
Proof.
  induction items as [|[name abbrs] r IH]; simpl; [discriminate|].
  destruct (PyStr.mem input (map lower abbrs)).
  - intros [= <-]. now left.
  - intros H. right. now apply IH.
Qed.

Lemma resolve_in_catalog input n :
  resolve_stage_name input = Some n -> In n STAGE_NAMES.
Proof.
  unfold resolve_stage_name.
  destruct (resolve_exact (lower input) STAGES) eqn:E.
  - intros [= <-]. now apply resolve_exact_in in E.
  - apply resolve_abbr_in.
Qed.

Lemma generate_config_file_ok w :
  NoDup (banned_stages (self w)) ->
  incl (banned_stages (self w)) STAGE_NAMES ->
  (List.length (banned_stages (self w)) <= 2)%nat ->
  exists path ordered w',
    generate_config_file w = Ok path w'
    /\ self w' = set_ordered_stages ordered (self w).
Proof.
  intros Hnd Hincl Hlen.
  set (w0 := with_trace [MakeDirs OUTPUT_DIR] w).
  pose proof (remaining_of_length _ Hnd Hincl) as Hsum.
  destruct (generate_run w0 w0) as (sh & rem & n & _ & _ & _ & _ & Hp & _ & G & _);
    try assumption; try reflexivity.
  { apply long_remaining_ok. unfold w0. cbn [self with_trace]. lia. }
  { apply same_draws_refl. }
  destruct (build_config_tail w0 _ rem _ Hnd Hincl Hp G) as [B _].
  apply generate_config_file_run in B.
  eexists _, _, _. split; [exact B|]. reflexivity.
Qed.


(** *** Rules for [yields] *)

Section Yields.

Context {A B : Type}.

Lemma yields_bind (m : M A) (k : A -> M B) w (Q : B -> DraftManager -> Prop) :
  yields m w (fun a d => forall w1, self w1 = d -> yields (k a) w1 Q) ->
  yields (bind m k) w Q.
Proof.
  intros (a & w1 & Hm & Hk). destruct (Hk w1 eq_refl) as (b & w2 & Hb & HQ).
  exists b, w2. split; [|exact HQ]. unfold bind. now rewrite Hm.
Qed.

Lemma yields_ret (a : A) w (Q : A -> DraftManager -> Prop) :
  Q a (self w) -> yields (ret a) w Q.
Proof. intros H. now exists a, w. Qed.

Lemma yields_weaken (m : M A) w (Q Q' : A -> DraftManager -> Prop) :
  yields m w Q -> (forall a d, Q a d -> Q' a d) -> yields m w Q'.
Proof. intros (a & w' & Hm & HQ) H. exists a, w'. auto. Qed.

End Yields.

Lemma yields_emit e w (Q : unit -> DraftManager -> Prop) :
  Q tt (self w) -> yields (emit e) w Q.
Proof. intros H. eexists tt, _. split; [reflexivity | exact H]. Qed.

Lemma yields_modify f w (Q : unit -> DraftManager -> Prop) :
  Q tt (f (self w)) -> yields (modify_self f) w Q.
Proof. intros H. eexists tt, _. split; [reflexivity | exact H]. Qed.

Lemma yields_get w (Q : DraftManager -> DraftManager -> Prop) :
  Q (self w) (self w) -> yields get_self w Q.
Proof. intros H. eexists _, _. split; [reflexivity | exact H]. Qed.

Lemma yields_write_draft_status w (Q : bool -> DraftManager -> Prop) :
  Q true (self w) -> yields write_draft_status w Q.
Proof. intros H. eexists _, _. split; [reflexivity | exact H]. Qed.

Lemma yields_set_output_line i v w (Q : unit -> DraftManager -> Prop) :
  (i < List.length (output_lines (self w)))%nat ->
  Q tt (set_output_lines (update (output_lines (self w)) i v) (self w)) ->
  yields (set_output_line i v) w Q.
Proof.
  intros Hi H.
  exists tt, (with_self (fun d => set_output_lines
                                   (update (output_lines d) i v) d) w).
  split; [|exact H].
  unfold set_output_line, bind, get_self, setitem.
  apply Nat.ltb_lt in Hi. rewrite Hi. reflexivity.
Qed.

Lemma yields_generate_config_file w (Q : string -> DraftManager -> Prop) :
  NoDup (banned_stages (self w)) ->
  incl (banned_stages (self w)) STAGE_NAMES ->
  (List.length (banned_stages (self w)) <= 2)%nat ->
  (forall path ordered, Q path (set_ordered_stages ordered (self w))) ->
  yields generate_config_file w Q.
Proof.
  intros Hnd Hincl Hlen H.
  destruct (generate_config_file_ok w Hnd Hincl Hlen)
    as (path & ordered & w' & G & Hs).
  exists path, w'. split; [exact G|]. rewrite Hs. apply H.
Qed.

Lemma yields_generate_split_file w (Q : string -> DraftManager -> Prop) :
  (forall path splits, Q path (set_split_list splits (self w))) ->
  yields generate_split_file w Q.
Proof.
  intros H. eexists _, _. split; [apply generate_split_file_run|].
  cbn [self with_trace with_self]. apply H.
Qed.

Ltac rewrite_self :=
  repeat match goal with
         | E : self ?w = _ |- context [self ?w] => rewrite E
         end.

Ltac rewrite_self_in H :=
  repeat match goal with
         | E : self ?w = _ |- _ =>
             match type of H with
             | context [self ?w] => rewrite E in H
             end
         end.

Ltac manager_fields :=
  cbn [runner1 runner2 first_banner second_banner banned_stages current_turn
       draft_active countdown_channel waiting_for_ban1 waiting_for_ban2
       ordered_stages split_list output_lines
       set_runner1 set_runner2 set_first_banner set_second_banner
       set_banned_stages set_current_turn set_draft_active
       set_countdown_channel set_waiting_for_ban1 set_waiting_for_ban2
       set_ordered_stages set_split_list set_output_lines getattr].

Ltac lines_in_range :=
  rewrite_self; manager_fields; rewrite ?update_length;
  try match goal with
      | H : List.length (output_lines _) = 3%nat |- _ => rewrite H
      end;
  first [assumption | lia | cbn; lia].

Ltac yield_step :=
  lazymatch goal with
  | |- yields (bind _ _) _ _ => apply yields_bind
  | |- yields (emit _) _ _ => apply yields_emit; rewrite_self
  | |- yields (modify_self _) _ _ => apply yields_modify; rewrite_self
  | |- yields get_self _ _ => apply yields_get; rewrite_self
  | |- yields write_draft_status _ _ =>
      apply yields_write_draft_status; rewrite_self
  | |- yields (ret _) _ _ => apply yields_ret; rewrite_self
  | |- yields (set_output_line _ _) _ _ =>
      apply yields_set_output_line; [lines_in_range | rewrite_self]
  | |- yields (setattr _ _) _ _ => cbn [setattr]
  | |- forall w1, self w1 = _ -> _ =>
      let w := fresh "w" in let E := fresh "E" in intros w E
  end.

(** The closing branch returns and ends the draft, whatever the bans (up
    to two distinct catalog stages) and the channel. *)
Lemma conclude_draft_run banner stage w :
  NoDup (banned_stages (self w)) ->
  incl (banned_stages (self w)) STAGE_NAMES ->
  (List.length (banned_stages (self w)) <= 2)%nat ->
  List.length (output_lines (self w)) = 3%nat ->
  yields (conclude_draft banner stage) w (fun _ d =>
    banned_stages d = banned_stages (self w)
    /\ draft_active d = false
    /\ List.length (output_lines d) = 3%nat).
Proof.
  intros Hnd Hincl Hlen Hout.
  unfold conclude_draft.
  repeat yield_step.
  apply yields_generate_config_file; rewrite_self; try assumption.
  intros path ordered. repeat yield_step.
  apply yields_generate_split_file; rewrite_self. intros path2 splits.
  repeat yield_step.
  cbn [countdown_channel set_split_list set_ordered_stages set_output_lines].
  assert (Hlen3 : List.length (update (output_lines (self w)) 0
                                "Draft concluded"%string) = 3%nat)
    by now rewrite update_length.
  destruct (countdown_channel (self w)) as [ch|];
    [repeat yield_step; destruct (guild_has_pacekeeping ch)|];
    repeat yield_step;
    (split; [reflexivity | split; [reflexivity | exact Hlen3]]).
Qed.

Lemma invariant_after_ban d stage :
  session_invariant d ->
  (List.length (banned_stages d) <= 1)%nat ->
  In stage STAGE_NAMES -> ~ In stage (banned_stages d) ->
  NoDup (banned_stages d ++ [stage])
  /\ incl (banned_stages d ++ [stage]) STAGE_NAMES
  /\ (List.length (banned_stages d ++ [stage]) <= 2)%nat.
Proof.
  intros (Hnd & Hincl & _) Hlen Hcat Hnew. repeat split.
  - apply NoDup_app; [assumption | constructor; [tauto | constructor] |].
    intros a Ha [<-|[]]. contradiction.
  - intros x Hx. apply in_app_or in Hx as [Hx|[<-|[]]]; auto.
  - rewrite length_app. simpl. lia.
Qed.

(** An awaited ban by a known banner is recorded, and either ends the
    draft or passes the turn on. *)
Lemma process_ban_run stage banner next_banner line_index waiting
  next_waiting is_final_ban w :
  NoDup (banned_stages (self w) ++ [stage]) ->
  incl (banned_stages (self w) ++ [stage]) STAGE_NAMES ->
  (List.length (banned_stages (self w) ++ [stage]) <= 2)%nat ->
  List.length (output_lines (self w)) = 3%nat ->
  (line_index < 3)%nat ->
  next_waiting <> Some waiting ->
  draft_active (self w) = true -> getattr (self w) waiting = true ->
  yields (_process_ban stage (Some banner) next_banner line_index waiting
                       next_waiting is_final_ban) w
    (fun _ d =>
       banned_stages d = banned_stages (self w) ++ [stage]
       /\ List.length (output_lines d) = 3%nat
       /\ (draft_active d = false
           \/ (is_final_ban = false /\ getattr d waiting = false))).
Proof.
  intros Hnd Hincl Hlen Hout Hli Hnw Hact Hw.
  unfold _process_ban. repeat yield_step.
  rewrite Hact, Hw. cbn [negb orb].
  repeat yield_step. manager_fields.
  assert (Hdone : forall wz,
    self wz = set_output_lines
                (update (update (output_lines (self w)) line_index stage) 0
                        (banner ++ " banned " ++ stage)%string)
                (set_banned_stages (banned_stages (self w) ++ [stage])
                                   (self w)) ->
    yields (conclude_draft banner stage) wz
      (fun _ d =>
         banned_stages d = banned_stages (self w) ++ [stage]
         /\ List.length (output_lines d) = 3%nat
         /\ (draft_active d = false
             \/ (is_final_ban = false /\ getattr d waiting = false)))).
  { intros wz Ez.
    eapply yields_weaken.
    - apply conclude_draft_run; rewrite Ez; manager_fields;
        rewrite ?update_length; assumption.
    - cbv beta. intros _ d (Hb & Ha & Ho). rewrite Hb, Ez. manager_fields.
      auto. }
  destruct (countdown_channel (self w)) as [ch|], is_final_ban,
    next_banner as [next|];
    repeat yield_step;
    try (apply Hdone; assumption);
    destruct waiting, next_waiting as [[|]|]; try congruence;
    repeat yield_step; manager_fields;
    rewrite ?update_length; auto.
Qed.

(** What an accepted or a dropped ban leaves in the manager. *)
Lemma process_ban1_run stage w :
  session_invariant (self w) ->
  draft_active (self w) = true -> waiting_for_ban1 (self w) = true ->
  In stage STAGE_NAMES -> ~ In stage (banned_stages (self w)) ->
  yields (process_ban1 stage) w (fun _ d =>
    d = self w
    \/ (banned_stages d = banned_stages (self w) ++ [stage]
        /\ List.length (output_lines d) = 3%nat
        /\ (draft_active d = false \/ waiting_for_ban1 d = false))).
Proof.
  intros Hinv Hact Hw1 Hcat Hnew.
  assert (Hbs : banned_stages (self w) = []) by (now apply Hinv).
  destruct (invariant_after_ban _ stage Hinv) as (Hnd & Hincl & Hlen);
    [rewrite Hbs; simpl; lia | assumption..|].
  destruct Hinv as (_ & _ & _ & Hout & _).
  unfold process_ban1. repeat yield_step.
  destruct (first_banner (self w)) as [banner|].
  - eapply yields_weaken.
    + apply process_ban_run; rewrite_self; try assumption; try discriminate.
      destruct (opt_eqb _ _); lia.
    + cbv beta. intros _ d H. right. rewrite E in H.
      cbn [getattr] in H. tauto.
  - unfold _process_ban. repeat yield_step.
    rewrite Hact. cbn [getattr]. rewrite Hw1. cbn [negb orb].
    repeat yield_step. now left.
Qed.

Lemma process_ban2_run stage w :
  session_invariant (self w) ->
  draft_active (self w) = true -> waiting_for_ban2 (self w) = true ->
  In stage STAGE_NAMES -> ~ In stage (banned_stages (self w)) ->
  yields (process_ban2 stage) w (fun _ d =>
    d = self w
    \/ (banned_stages d = banned_stages (self w) ++ [stage]
        /\ List.length (output_lines d) = 3%nat
        /\ draft_active d = false)).
Proof.
  intros Hinv Hact Hw2 Hcat Hnew.
  assert (Hbs : (List.length (banned_stages (self w)) <= 1)%nat)
    by (now apply Hinv).
  destruct (invariant_after_ban _ stage Hinv) as (Hnd & Hincl & Hlen);
    [assumption..|].
  destruct Hinv as (_ & _ & _ & Hout & _).
  unfold process_ban2. repeat yield_step.
  destruct (second_banner (self w)) as [banner|].
  - eapply yields_weaken.
    + apply process_ban_run; rewrite_self; try assumption; try discriminate.
      destruct (opt_eqb _ _); lia.
    + cbv beta. intros _ d H. right. rewrite E in H.
      destruct H as (Hb & Ho & [Ha | [Hf _]]); [auto | discriminate].
  - unfold _process_ban. repeat yield_step.
    rewrite Hact. cbn [getattr]. rewrite Hw2. cbn [negb orb].
    repeat yield_step. now left.
Qed.

(** Printing the stages still available changes nothing in the manager. *)
Lemma yields_for_each_prints {A} (l : list A) (skip : A -> bool)
  (line : A -> string) w (Q : unit -> DraftManager -> Prop) :
  Q tt (self w) ->
  yields (for_each l (fun e => if skip e then ret tt
                               else emit (Print (line e)))) w Q.
Proof.
  revert w. induction l as [|x l IH]; intros w H; cbn [for_each].
  - now apply yields_ret.
  - apply yields_bind. destruct (skip x).
    + apply yields_ret. intros w1 E. apply IH. now rewrite E.
    + apply yields_emit. intros w1 E. apply IH. now rewrite E.
Qed.

Lemma yields_try_except {A} (body : M A) handler w
  (Q : A -> DraftManager -> Prop) :
  yields body w Q -> yields (try_except body handler) w Q.
Proof.
  intros (a & w' & Hb & HQ). exists a, w'. split; [|exact HQ].
  unfold try_except. now rewrite Hb.
Qed.

Lemma reset_run w :
  reset w
  = Ok tt (mkWorld DraftManager_init (tape w) (cursor w)
             (trace w ++ [WriteText DRAFT_STATUS_FILE
                            (join nl [""; ""; ""]%string)])).
Proof. reflexivity. Qed.

Lemma yields_reset w (Q : unit -> DraftManager -> Prop) :
  Q tt DraftManager_init -> yields reset w Q.
Proof.
  intros H. eexists tt, _. split; [apply reset_run | exact H].
Qed.

Lemma session_invariant_init : session_invariant DraftManager_init.
Proof.
  unfold session_invariant, DraftManager_init. cbn.
  split; [constructor|]. split; [intros x []|].
  split; [lia|]. split; [reflexivity|]. split; discriminate.
Qed.

(** The coin of the start command comes up 0 or 1. *)
Lemma yields_coin w (Q : Z -> DraftManager -> Prop) :
  Q 0%Z (self w) -> Q 1%Z (self w) -> yields (choice [0; 1]%Z) w Q.
Proof.
  intros H0 H1. unfold choice, bind, yields. rewrite randbelow_run.
  pose proof (randbelow_lt 2 w ltac:(lia)) as H.
  cbn [List.length] in *.
  destruct (N.to_nat (tape w (cursor w) mod N.of_nat 2)) as [|[|n]];
    [exists 0%Z | exists 1%Z | lia]; eexists; (split; [reflexivity|]);
    assumption.
Qed.

(** A start command either changes nothing in the manager or opens a
    fresh draft that awaits the first ban. *)
Lemma handle_start_run message tokens w :
  yields (_handle_start_command message tokens) w (fun _ d =>
    d = self w
    \/ (banned_stages d = []
        /\ List.length (output_lines d) = 3%nat
        /\ waiting_for_ban2 d = false)).
Proof.
  unfold _handle_start_command. cbv zeta.
  destruct (negb (has_drafter_role (author_roles message)));
    [yield_step; now left|].
  destruct tokens as [|t0 [|name1 [|name2 [|t3 rest]]]];
    try (yield_step; now left).
  destruct (orb _ _); [yield_step; now left|].
  yield_step. apply yields_reset.
  repeat yield_step.
  apply yields_coin; repeat yield_step;
    cbn [Z.eqb]; repeat yield_step;
    right; manager_fields; auto.
Qed.

Lemma yields_world_after {A} (m : M A) w (Q : A -> DraftManager -> Prop) :
  yields m w Q -> exists a, Q a (self (world_after (m w))).
Proof. intros (a & w' & Hm & HQ). exists a. now rewrite Hm. Qed.

Lemma fresh_draft_invariant d :
  banned_stages d = [] -> List.length (output_lines d) = 3%nat ->
  waiting_for_ban2 d = false ->
  session_invariant d.
Proof.
  intros Hb Ho Hw. unfold session_invariant. rewrite Hb, Ho, Hw.
  split; [constructor|]. split; [intros x []|].
  split; [simpl; lia|]. split; [reflexivity|].
  split; [reflexivity | discriminate].
Qed.

Lemma bind_ret {A B} (a : A) (k : A -> M B) w : bind (ret a) k w = k a w.
Proof. reflexivity. Qed.

Lemma bind_get {B} (k : DraftManager -> M B) w :
  bind get_self k w = k (self w) w.
Proof. reflexivity. Qed.

Lemma on_message_run message w :
  session_invariant (self w) ->
  let d := self (world_after (on_message message w)) in
  session_invariant d
  /\ at_most_one_new_ban (banned_stages (self w)) (banned_stages d).
Proof.
  intros Hinv. unfold on_message.
  destruct (author_is_client message);
    [split; [exact Hinv | left; reflexivity]|].
  destruct (String.prefix PREFIX (content message));
    [|split; [exact Hinv | left; reflexivity]].
  unfold index.
  destruct (nth_error (split_ws (content message)) 0) as [token0|];
    [|split; [exact Hinv | left; reflexivity]].
  rewrite bind_ret.
  destruct (String.eqb _ "start").
  - destruct (yields_world_after _ _ _
                (handle_start_run message (split_ws (content message)) w))
      as (_ & [Hs | (Hb & Ho & Hw)]).
    + cbv zeta. rewrite Hs. split; [exact Hinv | left; reflexivity].
    + split; [now apply fresh_draft_invariant | right; left; exact Hb].
  - destruct (String.eqb _ "end").
    + unfold bind at 1. rewrite reset_run. cbv beta iota.
      split; [apply session_invariant_init | right; left; reflexivity].
    + split; [exact Hinv | left; reflexivity].
Qed.

Lemma console_pass_run line w :
  session_invariant (self w) ->
  draft_active (self w) = true ->
  orb (waiting_for_ban1 (self w)) (waiting_for_ban2 (self w)) = true ->
  yields (console_pass line) w (fun _ d =>
    session_invariant d
    /\ at_most_one_new_ban (banned_stages (self w)) (banned_stages d)).
Proof.
  intros Hinv Hact Hwait. unfold console_pass.
  repeat yield_step.
  apply yields_for_each_prints. rewrite_self.
  repeat yield_step.
  apply yields_try_except.
  destruct (resolve_stage_name (strip line)) as [full|] eqn:Eres;
    [|yield_step; split; [exact Hinv | left; reflexivity]].
  apply resolve_in_catalog in Eres.
  destruct (PyStr.mem full (banned_stages (self w))) eqn:Emem;
    [yield_step; split; [exact Hinv | left; reflexivity]|].
  apply mem_not_In in Emem.
  assert (Hgrow : forall d,
    banned_stages d = banned_stages (self w) ++ [full] ->
    at_most_one_new_ban (banned_stages (self w)) (banned_stages d))
    by (intros d Hb; right; right; exists full; auto).
  destruct (waiting_for_ban1 (self w)) eqn:Ew1.
  - assert (Hbs : banned_stages (self w) = []) by (now apply Hinv).
    destruct (invariant_after_ban _ full Hinv) as (Hnd & Hincl & Hlen);
      [rewrite Hbs; simpl; lia | assumption..|].
    apply yields_try_except. eapply yields_weaken.
    + apply process_ban1_run; rewrite_self; assumption.
    + cbv beta. intros _ d Hd. rewrite_self_in Hd.
      destruct Hd as [-> | (Hb & Ho & Hflag)].
      * split; [exact Hinv | left; reflexivity].
      * split; [|now apply Hgrow].
        unfold session_invariant. rewrite Hb, Ho.
        repeat split; try assumption.
        -- intros Ha Hw. destruct Hflag; congruence.
        -- intros _ _. rewrite Hbs. simpl. lia.
  - simpl in Hwait.
    assert (Hbs : (List.length (banned_stages (self w)) <= 1)%nat)
      by (now apply Hinv).
    destruct (invariant_after_ban _ full Hinv) as (Hnd & Hincl & Hlen);
      [assumption..|].
    apply yields_try_except. eapply yields_weaken.
    + apply process_ban2_run; rewrite_self; assumption.
    + cbv beta. intros _ d Hd. rewrite_self_in Hd.
      destruct Hd as [-> | (Hb & Ho & Hflag)].
      * split; [exact Hinv | left; reflexivity].
      * split; [|now apply Hgrow].
        unfold session_invariant. rewrite Hb, Ho.
        repeat split; try assumption.
        -- intros Ha Hw. congruence.
        -- intros Ha Hw. congruence.
Qed.

Lemma perform_run a w :
  session_invariant (self w) ->
  let d := self (world_after (perform a w)) in
  session_invariant d
  /\ at_most_one_new_ban (banned_stages (self w)) (banned_stages d).
Proof.
  intros Hinv. destruct a as [message|line]; cbn [perform].
  - now apply on_message_run.
  - cbn [console_input_loop]. rewrite bind_get.
    destruct (draft_active (self w)) eqn:Hact;
      [|split; [exact Hinv | left; reflexivity]].
    destruct (orb _ _) eqn:Hwait;
      [|split; [exact Hinv | left; reflexivity]].
    destruct (console_pass_run line w Hinv Hact Hwait)
      as (u & w' & Hp & Hi & Hb).
    unfold bind. rewrite Hp. unfold ret. cbn [world_after]. split; assumption.
Qed.

Lemma reachable_invariant w : reachable w -> session_invariant (self w).
Proof.
  induction 1 as [t | w a _ IH].
  - apply session_invariant_init.
  - now apply perform_run.
Qed.



(** The scenario of the specification: the first ban, a repeated ban that
    is turned down, the second ban. *)
Example draft_scenario :
  let start := initial_world (fun n => N.of_nat n) in
  let w1 := session [drafter_says "!start Alice Bob"; ConsoleLine "WC"] start in
  let w2 := session [ConsoleLine "wc"] w1 in
  let w3 := session [ConsoleLine "pumpkin"] w2 in
  banned_stages (self w1) = ["Wild Canyon"%string]
  /\ (draft_active (self w1), waiting_for_ban1 (self w1),
      waiting_for_ban2 (self w1)) = (true, false, true)
  /\ self w2 = self w1
  /\ banned_stages (self w3) = ["Wild Canyon"; "Pumpkin Hill"]%string
  /\ (draft_active (self w3), waiting_for_ban1 (self w3),
      waiting_for_ban2 (self w3)) = (false, false, false).
Proof. vm_compute. repeat split. Qed.

(** C7, as the code has it.  A ban submitted while no draft is active is
    dropped without any report: the coroutine returns [None], the value it
    also returns for an accepted ban, and nothing is printed, sent or
    written; the console loop does not even read the line. *)
Lemma idle_ban_is_not_reported :
  let idle := initial_world (fun n => N.of_nat n) in
  let started := session [drafter_says "!start Alice Bob"] idle in
  process_ban1 "Wild Canyon" idle = Ok tt idle
  /\ trace idle = []
  /\ world_after (perform (ConsoleLine "WC") idle) = idle
  /\ exists w',
       process_ban1 "Wild Canyon" started = Ok tt w'
       /\ banned_stages (self w') = ["Wild Canyon"%string].
Proof.
  cbv zeta. split; [reflexivity|]. split; [reflexivity|].
  split; [reflexivity|].
  eexists. split; [vm_compute; reflexivity | reflexivity].
Qed.

Lemma process_ban_guard w full_stage_name banner next_banner line_index
  waiting next_waiting is_final_ban :
  draft_active (self w) = false \/ getattr (self w) waiting = false ->
  _process_ban full_stage_name banner next_banner line_index waiting
               next_waiting is_final_ban w
  = Ok tt w.
Proof.
  intros H. unfold _process_ban. rewrite bind_get.
  assert (E : orb (negb (draft_active (self w)))
                  (negb (getattr (self w) waiting)) = true).
  { destruct H as [-> | ->]; [reflexivity | apply orb_true_r]. }
  rewrite E. reflexivity.
Qed.

(** C7 amended.  When the draft is not active, or the ban in question is
    not the one awaited, [_process_ban] returns at once: the world (the
    manager, the draws, the outputs) is exactly as before, and the caller
    gets the same [None] as after an accepted ban: nothing is reported. *)
Theorem ban_not_awaited_changes_nothing (w : World) (full_stage_name : string)
  (banner next_banner : option string) (line_index : nat)
  (waiting : waiting_attr) (next_waiting : option waiting_attr)
  (is_final_ban : bool) :
  draft_active (self w) = false \/ getattr (self w) waiting = false ->
  _process_ban full_stage_name banner next_banner line_index waiting
               next_waiting is_final_ban w
  = Ok tt w.
Proof.
  intros H. unfold _process_ban. rewrite bind_get.
  destruct H as [Hactive | Hwaiting].
  - rewrite Hactive. reflexivity.
  - rewrite Hwaiting. cbn [negb]. rewrite orb_true_r. reflexivity.
Qed.

Lemma ban_not_awaited_changes_nothing_witness :
  (draft_active (self concluded_example) = false
   \/ getattr (self concluded_example) attr_waiting_for_ban2 = false)
  /\ _process_ban "Mad Space" (Some "Alice"%string) None 1
                  attr_waiting_for_ban2 None true concluded_example
     = Ok tt concluded_example.
Proof.
  assert (H : draft_active (self concluded_example) = false
              \/ getattr (self concluded_example) attr_waiting_for_ban2
                 = false)
    by (left; vm_compute; reflexivity).
  split; [exact H|].
  exact (ban_not_awaited_changes_nothing concluded_example "Mad Space"
           (Some "Alice"%string) None 1 attr_waiting_for_ban2 None true H).
Defined.

(** The two entry points and the console loop inherit it. *)
Lemma process_ban1_not_awaited w stage :
  draft_active (self w) = false \/ waiting_for_ban1 (self w) = false ->
  process_ban1 stage w = Ok tt w.
Proof.
  intros H. unfold process_ban1. rewrite bind_get.
  now apply process_ban_guard.
Qed.

Lemma process_ban2_not_awaited w stage :
  draft_active (self w) = false \/ waiting_for_ban2 (self w) = false ->
  process_ban2 stage w = Ok tt w.
Proof.
  intros H. unfold process_ban2. rewrite bind_get.
  now apply process_ban_guard.
Qed.

Lemma console_line_when_inactive w line :
  draft_active (self w) = false ->
  perform (ConsoleLine line) w = Ok tt w.
Proof.
  intros H. cbn [perform console_input_loop]. rewrite bind_get, H.
  reflexivity.
Qed.

(** * Further properties of the code *)

(** ** The resolver on the catalog itself *)

(** X1. Every canonical name and every registered alias, written in any
    letter case, resolves to its own stage. *)
Theorem resolve_names_and_aliases (e : string * list string)
  (a input : string) :
  In e STAGES ->
  a = fst e \/ In a (snd e) ->
  lower input = lower a ->
  resolve_stage_name input = Some (fst e).
Proof.
  intros He Ha Hl. unfold resolve_stage_name. rewrite Hl. clear Hl input.
  simpl in He.
  repeat (destruct He as [He|He]); try contradiction; subst e;
    cbn [fst snd In] in Ha;
    repeat (destruct Ha as [Ha|Ha]); try contradiction; subst a;
    reflexivity.
Qed.

Lemma resolve_names_and_aliases_witness :
  In ("Pumpkin Hill", ["PH"; "pumpkin"; "hill"])%string STAGES
  /\ resolve_stage_name "PuMpKiN"
     = Some (fst ("Pumpkin Hill", ["PH"; "pumpkin"; "hill"])%string).
Proof.
  assert (H : In ("Pumpkin Hill", ["PH"; "pumpkin"; "hill"])%string STAGES)
    by (simpl; auto).
  split; [exact H|].
  apply (resolve_names_and_aliases _ "pumpkin" "PuMpKiN" H).
  - right. simpl. auto.
  - reflexivity.
Defined.



(** ** The generator on any list of bans *)

Lemma enumerate_ranks {A} start (l : list A) :
  map (fun e => Some (fst e + 1)%Z) (enumerate_from start l)
  = map (fun k => Some (start + Z.of_nat k)%Z) (seq 1 (List.length l)).
Proof.
  revert start. induction l as [|x l IH]; intros start; [reflexivity|].
  cbn [enumerate_from map List.length seq fst]. f_equal.
  rewrite IH, <- (seq_shift (List.length l) 1), map_map.
  apply map_ext. intros k. f_equal. lia.
Qed.

(** X3. For any list of distinct catalog stages as bans that leaves more
    than Security Hall alone (none, one, two, ... bans), generation returns:
    the banned stages have rank 0, the active sequence is a rearrangement
    of the stages not banned that does not start with Security Hall, its
    ranks read 1, 2, ..., [9 - bans], and nothing but
    [self.ordered_stages] changes in the manager. *)
Theorem ordering_for_any_bans (w : World) :
  NoDup (banned_stages (self w)) ->
  incl (banned_stages (self w)) STAGE_NAMES ->
  remaining_of (banned_stages (self w)) <> [SECURITY_HALL] ->
  exists ordered abbrs w',
    generate_ordered_stages w = Ok (ordered, abbrs) w'
    /\ self w' = set_ordered_stages ordered (self w)
    /\ (forall stage, In stage (banned_stages (self w)) ->
                      rank_in ordered stage = Some 0%Z)
    /\ Permutation (stage_order_of ordered)
                   (remaining_of (banned_stages (self w)))
    /\ hd_error (stage_order_of ordered) <> Some SECURITY_HALL
    /\ map (rank_in ordered) (stage_order_of ordered)
       = map (fun k => Some (Z.of_nat k))
             (seq 1 (9 - List.length (banned_stages (self w)))).
Proof.
  intros Hnd Hincl Hne.
  destruct (generate_run w w)
    as (sh & rem & n & _ & _ & _ & _ & Hp & Hhd & G & _);
    try assumption; try reflexivity.
  { apply same_draws_refl. }
  assert (Hnd2 : NoDup (banned_stages (self w) ++ rem)).
  { eapply Permutation_NoDup; [|apply STAGE_NAMES_NoDup].
    apply Permutation_sym.
    eapply perm_trans; [apply Permutation_app_head, Permutation_sym, Hp|].
    now apply banned_remaining_perm. }
  eexists _, _, _. split; [exact G|].
  rewrite stage_order_of_ordering.
  split; [reflexivity|].
  split; [intros stage Hs; now apply rank_in_banned|].
  split; [now apply Permutation_sym|].
  split; [exact Hhd|].
  rewrite rank_in_remaining by assumption.
  unfold enumerate. rewrite enumerate_ranks.
  pose proof (remaining_of_length _ Hnd Hincl) as Hsum.
  rewrite <- (Permutation_length Hp).
  replace (9 - List.length (banned_stages (self w)))%nat
    with (List.length (remaining_of (banned_stages (self w)))) by lia.
  apply map_ext. intros k. f_equal.
Qed.

Lemma ordering_for_any_bans_witness :
  let w := world_with_bans ["Security Hall"] (fun n => N.of_nat (3 * n)) in
  exists ordered abbrs w',
    generate_ordered_stages w = Ok (ordered, abbrs) w'
    /\ self w' = set_ordered_stages ordered (self w)
    /\ (forall stage, In stage (banned_stages (self w)) ->
                      rank_in ordered stage = Some 0%Z)
    /\ Permutation (stage_order_of ordered)
                   (remaining_of (banned_stages (self w)))
    /\ hd_error (stage_order_of ordered) <> Some SECURITY_HALL
    /\ map (rank_in ordered) (stage_order_of ordered)
       = map (fun k => Some (Z.of_nat k))
             (seq 1 (9 - List.length (banned_stages (self w)))).
Proof.
  intros w. apply (ordering_for_any_bans w).
  - simpl. constructor; [simpl; tauto | constructor].
  - intros x [<-|[]]. simpl; auto 10.
  - discriminate.
Defined.



(** ** The two files of one draft *)

Lemma dict_get_In {V} (d : dict V) k v :
  NoDup (keys d) -> In (k, v) d -> PyDict.get d k = Some v.
Proof.
  induction d as [|[k' v'] r IH]; simpl; [contradiction|].
  intros Hnd [E|Hin].
  - injection E as -> ->. now rewrite String.eqb_refl.
  - inversion Hnd as [|? ? Hk Hr]; subst.
    destruct (String.eqb_spec k k') as [->|NE]; [|now apply IH].
    exfalso. apply Hk. unfold keys.
    change k' with (fst (k', v)). now apply in_map.
Qed.

Lemma order_section_lookup banned remaining :
  NoDup (banned ++ remaining) -> incl (banned ++ remaining) STAGE_NAMES ->
  let order := map (fun p => (abbr_of (fst p), str (snd p)))
                   (ranked banned remaining) in
  (forall stage, In stage banned ->
                 PyDict.get order (abbr_of stage) = Some "0"%string)
  /\ (forall k stage, nth_error remaining k = Some stage ->
        PyDict.get order (abbr_of stage) = Some (str (Z.of_nat k + 1))).
Proof.
  intros Hnd Hincl order.
  assert (Hkeys : NoDup (keys order)).
  { unfold keys, order. rewrite map_map. cbn [fst].
    rewrite <- (map_map fst abbr_of), ranked_stages.
    now apply abbr_keys_NoDup. }
  split.
  - intros stage Hs. apply dict_get_In; [exact Hkeys|].
    unfold order, ranked. rewrite map_app, in_app_iff. left.
    rewrite map_map. apply in_map_iff. exists stage. auto.
  - intros k stage Hk. apply dict_get_In; [exact Hkeys|].
    unfold order, ranked. rewrite map_app, in_app_iff. right.
    rewrite map_map. apply in_map_iff.
    exists (Z.of_nat k, stage). split; [reflexivity|].
    eapply nth_error_In. unfold enumerate.
    rewrite (enumerate_from_nth 0%Z _ _ _ Hk). reflexivity.
Qed.

(** X5. Writing the configuration file and then the split file, as the
    closing branch of a draft does, puts one and the same sequence into
    both: the order section gives rank 0 to the banned stages and rank
    [k + 1] to the stage at position [k] of the sequence whose segments,
    five per stage, fill the split file. *)
Theorem files_share_one_ordering (w : World) :
  NoDup (banned_stages (self w)) ->
  incl (banned_stages (self w)) STAGE_NAMES ->
  remaining_of (banned_stages (self w)) <> [SECURITY_HALL] ->
  exists remaining seed cfg_path lss_path w1 w2,
    let banned := banned_stages (self w) in
    let config := config_of seed banned remaining in
    generate_config_file w = Ok cfg_path w1
    /\ generate_split_file w1 = Ok lss_path w2
    /\ Permutation (remaining_of banned) remaining
    /\ trace w2
       = trace w
         ++ [MakeDirs OUTPUT_DIR;
             WriteText cfg_path (config_text config);
             Print ("Generated config file: " ++ cfg_path)%string;
             MakeDirs OUTPUT_DIR;
             WriteXml lss_path
               (split_document
                  (map segment_element (expected_labels remaining))
                  (_add_livesplit_settings []));
             Print ("Generated LiveSplit file: " ++ lss_path)%string]
    /\ (forall stage order, PyDict.get config "order" = Some order ->
          In stage banned ->
          PyDict.get order (abbr_of stage) = Some "0"%string)
    /\ (forall k stage order, PyDict.get config "order" = Some order ->
          nth_error remaining k = Some stage ->
          PyDict.get order (abbr_of stage) = Some (str (Z.of_nat k + 1))).
Proof.
  intros Hnd Hincl Hne.
  set (w0 := with_trace [MakeDirs OUTPUT_DIR] w).
  destruct (generate_run w0 w0) as (sh & rem & n & _ & _ & _ & _ & Hp & _ & G & _);
    try assumption; try reflexivity.
  { apply same_draws_refl. }
  destruct (build_config_tail w0 _ rem _ Hnd Hincl Hp G) as [B _].
  apply generate_config_file_run in B.
  match type of B with
  | _ = Ok _ (with_trace [WriteText _ (config_text (config_of ?s _ _)); _] _)
    => set (seed := s) in *
  end.
  match type of B with
  | _ = Ok ?p ?wc => set (w1 := wc) in *
  end.
  pose proof (generate_split_file_run w1) as S.
  cbv zeta in S.
  assert (Eo : stage_order_of (ordered_stages (self w1)) = rem)
    by apply stage_order_of_ordering.
  rewrite Eo in S.
  assert (Hall : Permutation (banned_stages (self w) ++ rem) STAGE_NAMES).
  { eapply perm_trans; [apply Permutation_app_head, Permutation_sym, Hp|].
    now apply banned_remaining_perm. }
  destruct (order_section_lookup (banned_stages (self w)) rem) as [L0 Lk].
  { eapply Permutation_NoDup;
      [apply Permutation_sym, Hall | apply STAGE_NAMES_NoDup]. }
  { intros s Hs. eapply Permutation_in; [exact Hall | exact Hs]. }
  exists rem, seed.
  eexists _, _, w1, _. cbv zeta.
  split; [exact B|]. split; [exact S|]. split; [exact Hp|].
  split.
  - unfold w1, w0, with_trace. cbn [self tape cursor trace advance with_self].
    rewrite <- !app_assoc. reflexivity.
  - split.
    + intros stage order [= <-] Hs. now apply L0.
    + intros k stage order [= <-] Hk. now apply Lk.
Qed.

Lemma files_share_one_ordering_witness :
  let w := world_with_bans ["Aquatic Mine"; "Meteor Herd"]
                           (fun n => N.of_nat (5 * n + 2)) in
  exists remaining seed cfg_path lss_path w1 w2,
    let banned := banned_stages (self w) in
    let config := config_of seed banned remaining in
    generate_config_file w = Ok cfg_path w1
    /\ generate_split_file w1 = Ok lss_path w2
    /\ Permutation (remaining_of banned) remaining
    /\ trace w2
       = trace w
         ++ [MakeDirs OUTPUT_DIR;
             WriteText cfg_path (config_text config);
             Print ("Generated config file: " ++ cfg_path)%string;
             MakeDirs OUTPUT_DIR;
             WriteXml lss_path
               (split_document
                  (map segment_element (expected_labels remaining))
                  (_add_livesplit_settings []));
             Print ("Generated LiveSplit file: " ++ lss_path)%string]
    /\ (forall stage order, PyDict.get config "order" = Some order ->
          In stage banned ->
          PyDict.get order (abbr_of stage) = Some "0"%string)
    /\ (forall k stage order, PyDict.get config "order" = Some order ->
          nth_error remaining k = Some stage ->
          PyDict.get order (abbr_of stage) = Some (str (Z.of_nat k + 1))).
Proof.
  intros w. apply (files_share_one_ordering w).
  - simpl. constructor; [simpl; intuition discriminate|].
    constructor; [simpl; tauto | constructor].
  - intros x [<-|[<-|[]]]; simpl; auto 10.
  - discriminate.
Defined.

(** ** Chat messages *)

Lemma bind_emit {B} e (k : unit -> M B) w :
  bind (emit e) k w = k tt (with_trace [e] w).
Proof. reflexivity. Qed.

Lemma split_ws_aux_word s word :
  word <> ""%string -> exists t rest, split_ws_aux s word = t :: rest.
Proof.
  revert word. induction s as [|c s IH]; intros word Hw; cbn [split_ws_aux].
  - destruct word; [congruence | eauto].
  - destruct (is_space c).
    + destruct word; [congruence | eauto].
    + apply IH. destruct word; discriminate.
Qed.

(** A text that starts with the prefix has a first token. *)
Lemma prefixed_has_token s :
  String.prefix PREFIX s = true ->
  exists t rest, split_ws s = t :: rest.
Proof.
  destruct s as [|c s]; [discriminate|]. cbn [String.prefix PREFIX].
  destruct (Ascii.ascii_dec "!" c) as [<-|NE]; [|discriminate].
  intros _. unfold split_ws. cbn [split_ws_aux].
  change (is_space "!") with false. cbv iota.
  apply split_ws_aux_word. discriminate.
Qed.



(** X7. The [end] command resets the draft for whoever sends it: no role
    is asked for.  The manager is as freshly constructed, the status file
    is rewritten with three empty lines and the channel is told. *)
Theorem end_command_resets (message : Message) (token0 : string)
  (w : World) :
  author_is_client message = false ->
  String.prefix PREFIX (content message) = true ->
  nth_error (split_ws (content message)) 0 = Some token0 ->
  lower (String.substring 1 (String.length token0 - 1) token0)
  = "end"%string ->
  on_message message w
  = Ok tt (mkWorld DraftManager_init (tape w) (cursor w)
             (trace w
              ++ [WriteText DRAFT_STATUS_FILE (nl ++ nl)%string;
                  Send (channel_name (channel message))
                       "The draft has been reset."])).
Proof.
  intros Ha Hp Ht Hc. unfold on_message. rewrite Ha, Hp.
  unfold index. rewrite Ht, bind_ret.
  cbn [String.length PREFIX]. rewrite Hc.
  change ("end" =? "start")%string with false.
  change ("end" =? "end")%string with true. cbv iota.
  unfold bind at 1. rewrite reset_run. cbv beta iota.
  unfold emit. cbn [self tape cursor trace].
  rewrite <- app_assoc. reflexivity.
Qed.

Lemma end_command_resets_witness :
  let message := mkMessage false [] "!END please"
                           (mkChannel "general" false) true in
  on_message message concluded_example
  = Ok tt (mkWorld DraftManager_init (tape concluded_example)
             (cursor concluded_example)
             (trace concluded_example
              ++ [WriteText DRAFT_STATUS_FILE (nl ++ nl)%string;
                  Send (channel_name (channel message))
                       "The draft has been reset."])).
Proof.
  intros message.
  apply (end_command_resets message "!END"%string); reflexivity.
Defined.



(** The start command on three tokens; also a step of a whole draft. *)
Lemma start_opens (message : Message)
  (t0 name1 name2 : string) (w : World) :
  has_drafter_role (author_roles message) = true ->
  (String.length name1 < 10)%nat -> (String.length name2 < 10)%nat ->
  yields (_handle_start_command message [t0; name1; name2]) w (fun _ d =>
    exists first second,
      ((first = name1 /\ second = name2) \/ (first = name2 /\ second = name1))
      /\ d = mkDraftManager (Some name1) (Some name2) (Some first)
               (Some second) [] (Some first) true
               (if channel_is_text message then Some (channel message)
                else None)
               true false [] []
               [(first ++ "'s turn to ban")%string; ""%string; ""%string]).
Proof.
  intros Hrole H1 H2. unfold _handle_start_command. cbv zeta.
  rewrite Hrole. cbn [negb].
  assert (E : orb (10 <=? String.length name1)%nat
                  (10 <=? String.length name2)%nat = false).
  { apply orb_false_iff. split; apply Nat.leb_gt; assumption. }
  rewrite E.
  yield_step. apply yields_reset.
  repeat yield_step.
  apply yields_coin; repeat yield_step;
    cbn [Z.eqb]; repeat yield_step.
  - exists name1, name2. split; [left; auto|]. reflexivity.
  - exists name2, name1. split; [right; auto|]. reflexivity.
Qed.

(** X9. A start command from a drafter with two names of fewer than ten
    characters opens a draft whatever the manager held before: the earlier
    bans, ordering and split list are discarded, the runners are the two
    names as typed (they are not required to differ), the coin makes one of
    them the first banner and the other the second, the turn is the first
    banner's, and the first ban is awaited. *)
Theorem start_command_opens_draft (message : Message)
  (t0 name1 name2 : string) (w : World) :
  has_drafter_role (author_roles message) = true ->
  (String.length name1 < 10)%nat -> (String.length name2 < 10)%nat ->
  yields (_handle_start_command message [t0; name1; name2]) w (fun _ d =>
    exists first second,
      ((first = name1 /\ second = name2) \/ (first = name2 /\ second = name1))
      /\ d = mkDraftManager (Some name1) (Some name2) (Some first)
               (Some second) [] (Some first) true
               (if channel_is_text message then Some (channel message)
                else None)
               true false [] []
               [(first ++ "'s turn to ban")%string; ""%string; ""%string]).
Proof. exact (start_opens message t0 name1 name2 w). Qed.

Lemma start_command_opens_draft_witness :
  let message := mkMessage false ["Hunting Drafter"%string] "!start Amy Amy"
                           (mkChannel "drafts" true) true in
  yields (_handle_start_command message ["!start"; "Amy"; "Amy"]%string)
         concluded_example (fun _ d =>
    exists first second,
      ((first = "Amy"%string /\ second = "Amy"%string)
       \/ (first = "Amy"%string /\ second = "Amy"%string))
      /\ d = mkDraftManager (Some "Amy"%string) (Some "Amy"%string)
               (Some first) (Some second) [] (Some first) true
               (if channel_is_text message then Some (channel message)
                else None)
               true false [] []
               [(first ++ "'s turn to ban")%string; ""%string; ""%string]).
Proof.
  intros message.
  apply (start_command_opens_draft message "!start" "Amy" "Amy"
           concluded_example); [reflexivity | cbn; lia | cbn; lia].
Defined.

(** ** Console lines *)

Lemma for_each_prints {A} (l : list A) (skip : A -> bool)
  (line : A -> string) w :
  exists evs,
    for_each l (fun e => if skip e then ret tt else emit (Print (line e))) w
    = Ok tt (with_trace evs w).
Proof.
  revert w. induction l as [|x l IH]; intros w; cbn [for_each].
  - exists []. unfold ret, with_trace. rewrite app_nil_r.
    destruct w; reflexivity.
  - destruct (skip x).
    + rewrite bind_ret. apply IH.
    + rewrite bind_emit.
      destruct (IH (with_trace [Print (line x)] w)) as (evs & H).
      rewrite H. exists (Print (line x) :: evs). unfold with_trace.
      cbn [self tape cursor trace]. now rewrite <- app_assoc.
Qed.

(** The prompt printed at the start of a pass. *)
Lemma console_pass_prompt line w :
  exists evs,
    console_pass line w
    = try_except
        (match resolve_stage_name (strip line) with
         | None => emit (Print "Invalid stage name. Please try again.")
         | Some full_stage_name =>
             if PyStr.mem full_stage_name (banned_stages (self w)) then
               emit (Print (full_stage_name ++ " has already been banned. "
                            ++ "Please choose another stage.")%string)
             else if waiting_for_ban1 (self w) then
               try_except (process_ban1 full_stage_name)
                 (fun e => emit (Print ("Error processing ban1: "
                                        ++ exn_str e)%string))
             else
               try_except (process_ban2 full_stage_name)
                 (fun e => emit (Print ("Error processing ban2: "
                                        ++ exn_str e)%string))
         end)
        (fun e => emit (Print ("Error processing input: " ++ exn_str e)%string))
        (with_trace evs w).
Proof.
  unfold console_pass. rewrite bind_get, !bind_emit.
  unfold bind at 1.
  match goal with
  | |- context [for_each STAGES ?body ?W] =>
      destruct (for_each_prints STAGES
                  (fun e => PyStr.mem (fst e) (banned_stages (self w)))
                  (fun e => ("- " ++ fst e ++ " (" ++ hd "" (snd e) ++ ")")%string)
                  W) as (evs & Hpr)
  end.
  rewrite Hpr. cbv beta iota.
  eexists. unfold with_trace. cbn [self tape cursor trace].
  rewrite <- !app_assoc. reflexivity.
Qed.



(** The pass that takes the first ban; also a step of a whole draft. *)
Lemma first_ban_step (line stage banner next l0 l1 l2 : string)
  (w : World) :
  draft_active (self w) = true ->
  waiting_for_ban1 (self w) = true ->
  first_banner (self w) = Some banner ->
  second_banner (self w) = Some next ->
  output_lines (self w) = [l0; l1; l2] ->
  resolve_stage_name (strip line) = Some stage ->
  ~ In stage (banned_stages (self w)) ->
  yields (console_pass line) w (fun _ d =>
    d = mkDraftManager
          (runner1 (self w)) (runner2 (self w)) (Some banner) (Some next)
          (banned_stages (self w) ++ [stage]) (Some next) true
          (countdown_channel (self w)) false true
          (ordered_stages (self w)) (split_list (self w))
          (if opt_eqb (Some banner) (runner1 (self w))
           then [(next ++ "'s turn to ban")%string; stage; l2]
           else [(next ++ "'s turn to ban")%string; l1; stage])).
Proof.
  intros Hact Hw1 Hfb Hsb Hol Hres Hnew.
  destruct (console_pass_prompt line w) as (evs & H).
  unfold yields. rewrite H. clear H.
  apply mem_not_In in Hnew. rewrite Hres, Hnew, Hw1.
  change (yields
    (try_except
       (try_except (process_ban1 stage)
          (fun e => emit (Print ("Error processing ban1: " ++ exn_str e)%string)))
       (fun e => emit (Print ("Error processing input: " ++ exn_str e)%string)))
    (with_trace evs w)
    (fun _ d =>
       d = mkDraftManager
             (runner1 (self w)) (runner2 (self w)) (Some banner) (Some next)
             (banned_stages (self w) ++ [stage]) (Some next) true
             (countdown_channel (self w)) false true
             (ordered_stages (self w)) (split_list (self w))
             (if opt_eqb (Some banner) (runner1 (self w))
              then [(next ++ "'s turn to ban")%string; stage; l2]
              else [(next ++ "'s turn to ban")%string; l1; stage]))).
  do 2 apply yields_try_except.
  assert (E0 : self (with_trace evs w) = self w) by reflexivity.
  generalize dependent (with_trace evs w). intros w0 E0.
  unfold process_ban1. repeat yield_step.
  rewrite Hfb, Hsb. unfold _process_ban. repeat yield_step.
  rewrite Hact. cbn [getattr]. rewrite Hw1. cbn [negb orb].
  destruct (self w) as [r1 r2 fb sb bs ct act ch wb1 wb2 os sl ol] eqn:Es.
  cbn [runner1 runner2 first_banner second_banner banned_stages current_turn
       draft_active countdown_channel waiting_for_ban1 waiting_for_ban2
       ordered_stages split_list output_lines] in *.
  subst ol fb sb act wb1.
  destruct (opt_eqb (Some banner) r1);
    destruct ch as [c|];
    repeat (first [yield_step | progress manager_fields
                   | progress cbn [update]]);
    reflexivity.
Qed.

(** X11. The first ban.  While the first ban is awaited and both banners
    are known, a line that resolves to a stage not yet banned records that
    stage, writes it on the status line of the runner who banned (line 1
    for runner 1, line 2 for runner 2), hands the turn to the second
    banner and awaits the second ban; nothing else changes in the
    manager. *)
Theorem first_ban_passes_turn (line stage banner next l0 l1 l2 : string)
  (w : World) :
  draft_active (self w) = true ->
  waiting_for_ban1 (self w) = true ->
  first_banner (self w) = Some banner ->
  second_banner (self w) = Some next ->
  output_lines (self w) = [l0; l1; l2] ->
  resolve_stage_name (strip line) = Some stage ->
  ~ In stage (banned_stages (self w)) ->
  yields (console_pass line) w (fun _ d =>
    d = mkDraftManager
          (runner1 (self w)) (runner2 (self w)) (Some banner) (Some next)
          (banned_stages (self w) ++ [stage]) (Some next) true
          (countdown_channel (self w)) false true
          (ordered_stages (self w)) (split_list (self w))
          (if opt_eqb (Some banner) (runner1 (self w))
           then [(next ++ "'s turn to ban")%string; stage; l2]
           else [(next ++ "'s turn to ban")%string; l1; stage])).
Proof. exact (first_ban_step line stage banner next l0 l1 l2 w). Qed.

Lemma first_ban_passes_turn_witness :
  let w := session [drafter_says "!start Alice Bob"]
                   (initial_world (fun n => N.of_nat n)) in
  yields (console_pass "  mad  ") w (fun _ d =>
    d = mkDraftManager
          (runner1 (self w)) (runner2 (self w)) (Some "Alice"%string)
          (Some "Bob"%string)
          (banned_stages (self w) ++ ["Mad Space"%string])
          (Some "Bob"%string) true
          (countdown_channel (self w)) false true
          (ordered_stages (self w)) (split_list (self w))
          (if opt_eqb (Some "Alice"%string) (runner1 (self w))
           then [("Bob" ++ "'s turn to ban")%string; "Mad Space"%string;
                 ""%string]
           else [("Bob" ++ "'s turn to ban")%string; ""%string;
                 "Mad Space"%string])).
Proof.
  intros w.
  apply (first_ban_passes_turn "  mad  " "Mad Space" "Alice" "Bob"
           "Alice's turn to ban" "" "" w); try reflexivity.
  vm_compute. tauto.
Defined.







(** ** Sessions as a whole *)

Lemma on_message_returns message w :
  exists w', on_message message w = Ok tt w'.
Proof.
  unfold on_message.
  destruct (author_is_client message); [eexists; reflexivity|].
  destruct (String.prefix PREFIX (content message)) eqn:Hp;
    [|eexists; reflexivity].
  destruct (prefixed_has_token _ Hp) as (t & rest & Ht).
  unfold index. rewrite Ht. cbn [nth_error]. rewrite bind_ret.
  destruct (String.eqb _ "start").
  - destruct (handle_start_run message (t :: rest) w) as ([] & w' & H & _).
    eauto.
  - destruct (String.eqb _ "end"); [|eexists; reflexivity].
    unfold bind at 1. rewrite reset_run. eexists. reflexivity.
Qed.

(** X13. In a session no handler lets an exception escape: from every
    reachable world each chat message and each console line is processed
    to the end.  In particular the [IndexError] of [tokens[0]] or of a
    status line, the [KeyError] of an abbreviation and the [ValueError] of
    an empty [randint] range never occur, and the [except] branches that
    would print them are never entered. *)
Theorem handlers_never_raise (w : World) (a : action) :
  reachable w -> exists w', perform a w = Ok tt w'.
Proof.
  intros Hr. pose proof (reachable_invariant w Hr) as Hinv.
  destruct a as [message|line]; cbn [perform].
  - apply on_message_returns.
  - cbn [console_input_loop]. rewrite bind_get.
    destruct (draft_active (self w)) eqn:Hact; [|eexists; reflexivity].
    destruct (orb _ _) eqn:Hwait; [|eexists; reflexivity].
    destruct (console_pass_run line w Hinv Hact Hwait) as ([] & w' & Hp & _).
    exists w'. unfold bind. rewrite Hp. reflexivity.
Qed.

Lemma handlers_never_raise_witness :
  reachable concluded_example
  /\ exists w', perform (ConsoleLine "wc") concluded_example = Ok tt w'.
Proof.
  assert (H : reachable concluded_example)
    by (unfold concluded_example; do 3 apply reach_step; apply reach_init).
  split; [exact H|].
  exact (handlers_never_raise concluded_example (ConsoleLine "wc") H).
Defined.






(** ** Reading the token *)











(** ** The random state *)

(** X16. What the configuration writer reads from the random state.  With
    [len] stages not banned, it reads [len - 1] draws for the shuffle, at
    most one more for the correction, and then one for the seed: the seed
    is always a draw of its own, taken after those of the ordering, and the
    cursor moves by [len] or [len + 1] positions in all. *)
Theorem draws_read_by_config_writer (w : World) :
  NoDup (banned_stages (self w)) ->
  incl (banned_stages (self w)) STAGE_NAMES ->
  remaining_of (banned_stages (self w)) <> [SECURITY_HALL] ->
  exists n config path w',
    let len := List.length (remaining_of (banned_stages (self w))) in
    let seed :=
      (1 + Z.of_N (tape w (cursor w + (len - 1 + n))
                   mod 2147483647))%Z in
    (n <= 1)%nat
    /\ generate_config_file w = Ok path w'
    /\ In (WriteText path (config_text config)) (trace w')
    /\ PyDict.get config "set"
       = Some [("seed"%string, str seed); ("ups"%string, "True"%string)]
    /\ tape w' = tape w
    /\ cursor w' = (cursor w + (len - 1 + n) + 1)%nat.
Proof.
  intros Hnd Hincl Hne.
  set (w0 := with_trace [MakeDirs OUTPUT_DIR] w).
  destruct (generate_run w0 w0)
    as (sh & rem & n & Hn & _ & _ & _ & Hp & _ & G & _);
    try assumption; try reflexivity.
  { apply same_draws_refl. }
  destruct (build_config_tail w0 _ rem _ Hnd Hincl Hp G) as [B _].
  apply generate_config_file_run in B.
  exists n. eexists _, _, _. cbv zeta.
  split; [exact Hn|]. split; [exact B|].
  split; [unfold with_trace; cbn [trace]; apply in_or_app; right; now left|].
  split; [reflexivity|].
  split; reflexivity.
Qed.

Lemma draws_read_by_config_writer_witness :
  let w := world_with_bans ["Wild Canyon"; "Dry Lagoon"]
                           (fun n => N.of_nat n * 1000003)%N in
  exists n config path w',
    let len := List.length (remaining_of (banned_stages (self w))) in
    let seed :=
      (1 + Z.of_N (tape w (cursor w + (len - 1 + n))
                   mod 2147483647))%Z in
    (n <= 1)%nat
    /\ generate_config_file w = Ok path w'
    /\ In (WriteText path (config_text config)) (trace w')
    /\ PyDict.get config "set"
       = Some [("seed"%string, str seed); ("ups"%string, "True"%string)]
    /\ tape w' = tape w
    /\ cursor w' = (cursor w + (len - 1 + n) + 1)%nat.
Proof.
  intros w. apply (draws_read_by_config_writer w).
  - simpl. constructor; [simpl; intuition discriminate|].
    constructor; [simpl; tauto | constructor].
  - intros x [<-|[<-|[]]]; simpl; auto 10.
  - discriminate.
Defined.

(** ** A whole draft *)


